(** * Jobly data-access layer: dynamic query construction

    A shallow embedding of the [Job] and [Company] models (the filter
    composers [Job.findAll] / [Company.findAll] and the partial updates
    [Job.update] / [Company.update]) together with the properties of the
    SQL text and parameter arrays they hand to the database. *)

From Stdlib Require Import Ascii String DecimalString DecimalNat ZArith Lia.
From stdpp Require Import gmap strings list sorting.

(** ** JavaScript values

    The values that reach the models are primitives.  A number is NaN
    or [Int z] for an integer [z] that JavaScript holds exactly and
    prints in plain decimal (employee counts, salaries and array lengths
    are such integers; NaN is what [ToNumber] gives for [undefined]).  A
    string is the sequence of bytes of its UTF-8 encoding. *)

Inductive number : Type :=
  | NaN
  | Int (z : Z).

Inductive value : Type :=
  | VUndefined
  | VNull
  | VBool (b : bool)
  | VNum (n : number)
  | VStr (s : string).

Module Js.

(** [String(n)] for an array length. *)
Definition dec (n : nat) : string :=
  NilEmpty.string_of_uint (Nat.to_uint n).

Definition NumberToString (n : number) : string :=
  match n with
  | NaN => "NaN"
  | Int z => NilZero.string_of_int (Z.to_int z)
  end.

(** [ToString], as applied by a template literal. *)
Definition ToString (v : value) : string :=
  match v with
  | VUndefined => "undefined"
  | VNull => "null"
  | VBool true => "true"
  | VBool false => "false"
  | VNum n => NumberToString n
  | VStr s => s
  end.

(** [ToBoolean], the test of [if (v)]. *)
Definition ToBoolean (v : value) : bool :=
  match v with
  | VUndefined | VNull => false
  | VBool b => b
  | VNum NaN => false
  | VNum (Int z) => negb (z =? 0)%Z
  | VStr s => negb (String.eqb s "")
  end.

(** [v !== undefined]. *)
Definition is_defined (v : value) : bool :=
  match v with
  | VUndefined => false
  | _ => true
  end.

(** [v === true]. *)
Definition is_true (v : value) : bool :=
  match v with
  | VBool true => true
  | _ => false
  end.

Definition is_space (c : ascii) : bool :=
  let n := nat_of_ascii c in
  ((9 <=? n) && (n <=? 13) || (n =? 32))%nat.

Fixpoint trim_left (s : string) : string :=
  match s with
  | String c s' => if is_space c then trim_left s' else s
  | EmptyString => EmptyString
  end.

Definition trim (s : string) : string :=
  String.rev (trim_left (String.rev (trim_left s))).

Fixpoint is_ascii (s : string) : bool :=
  match s with
  | String c s' => (nat_of_ascii c <? 128)%nat && is_ascii s'
  | EmptyString => true
  end.

Fixpoint digits (s : string) : bool :=
  match s with
  | String c s' =>
      let n := nat_of_ascii c in
      ((48 <=? n) && (n <=? 57))%nat && digits s'
  | EmptyString => true
  end.

(** The value of a run of 1 to 15 decimal digits: every such integer is
    a number JavaScript holds exactly. *)
Definition digits_value (ds : string) : option Z :=
  if digits ds && (1 <=? String.length ds)%nat && (String.length ds <=? 15)%nat
  then Z.of_uint <$> NilEmpty.uint_of_string ds
  else None.

(** [StringToNumber] where this file evaluates it: on a string that,
    between ASCII white space, is empty (0) or an optionally signed run
    of at most 15 decimal digits.  Any other string (a longer run, a
    fraction, an exponent, a radix prefix, [Infinity], other white
    space, anything that is no numeral) is left to the engine. *)
Definition plain_integer (s : string) : option Z :=
  match trim s with
  | EmptyString => Some 0%Z
  | String "+" ds => digits_value ds
  | String "-" ds => Z.opp <$> digits_value ds
  | ds => digits_value ds
  end.

(** [ToNumber] where this file evaluates it. *)
Definition known_number (v : value) : option number :=
  match v with
  | VUndefined => Some NaN
  | VNull => Some (Int 0)
  | VBool true => Some (Int 1)
  | VBool false => Some (Int 0)
  | VNum n => Some n
  | VStr s => Int <$> plain_integer s
  end.

(** [a > b].  Two strings compare by code units: equal strings are not
    greater, and two ASCII strings compare byte by byte.  Anything else
    compares numerically: a comparison with NaN is false and two
    integers compare as integers.  [engine a b] is the JavaScript
    engine's own answer to [a > b]; it is asked exactly where this file
    does not evaluate the comparison itself (distinct strings that are
    not both ASCII, and a string that [plain_integer] does not read,
    against a number), so that nothing is claimed there beyond what the
    engine answers. *)
Definition gt (engine : value → value → bool) (a b : value) : bool :=
  match a, b with
  | VStr x, VStr y =>
      if String.eqb x y then false
      else if is_ascii x && is_ascii y then String.ltb y x
      else engine a b
  | _, _ =>
      match known_number a, known_number b with
      | Some NaN, _ | _, Some NaN => false
      | Some (Int x), Some (Int y) => (y <? x)%Z
      | _, _ => engine a b
      end
  end.

(** [Array.prototype.join]. *)
Definition join (sep : string) (l : list string) : string :=
  String.concat sep l.

End Js.

(** ** Errors and queries *)

(** The error classes of [expressError], and the builder's
    [InvalidArgument]. *)
Inductive error : Type :=
  | BadRequestError (message : string)
  | NotFoundError (message : string)
  | InvalidArgument (message : string).

(** The two arguments of a [db.query] call. *)
Record query : Type := Query {
  sql : string;
  params : list value
}.

Inductive result (A : Type) : Type :=
  | Ok (a : A)
  | Err (e : error).
Arguments Ok {A} a.
Arguments Err {A} e.

(** ** The composer's local arrays

    [findAll] accumulates into two local arrays, [whereExpressions] and
    [queryValues], and may throw half-way; a completion therefore
    carries the arrays as they are at that moment. *)

Record locals : Type := Locals {
  whereExpressions : list string;
  queryValues : list value
}.

Definition fresh : locals :=
  {| whereExpressions := []; queryValues := [] |}.

Inductive completion (A : Type) : Type :=
  | Normal (a : A) (s : locals)
  | Thrown (e : error) (s : locals).
Arguments Normal {A} a s.
Arguments Thrown {A} e s.

Definition M (A : Type) : Type := locals -> completion A.

#[global] Instance M_ret : MRet M := fun A a s => Normal a s.

#[global] Instance M_bind : MBind M := fun A B k m s =>
  match m s with
  | Normal a s' => k a s'
  | Thrown e s' => Thrown e s'
  end.

(** [throw e] *)
#[global] Instance M_throw : MThrow error M := fun A e s => Thrown e s.

(** [queryValues.push(v)] *)
Definition push_value (v : value) : M unit :=
  fun s =>
    Normal tt {| whereExpressions := whereExpressions s;
                 queryValues := queryValues s ++ [v] |}.

(** [whereExpressions.push(e)] *)
Definition push_where (e : string) : M unit :=
  fun s =>
    Normal tt {| whereExpressions := whereExpressions s ++ [e];
                 queryValues := queryValues s |}.

(** [queryValues.length] *)
Definition values_length : M nat :=
  fun s => Normal (length (queryValues s)) s.

Definition get_locals : M locals := fun s => Normal s s.

Definition when (b : bool) (m : M unit) : M unit :=
  if b then m else mret tt.

(** A run from fresh arrays, as the caller sees it: the value reached
    (the [db.query] call to issue), or the error thrown before it. *)
Definition run {A} (m : M A) : result A :=
  match m fresh with
  | Normal a _ => Ok a
  | Thrown e _ => Err e
  end.

Definition dq : string := String (ascii_of_nat 34) EmptyString.
Definition nl : string := String (ascii_of_nat 10) EmptyString.

(** ** The partial-update builder *)

#[global] Instance result_ret : MRet result := fun A a => Ok a.

#[global] Instance result_bind : MBind result := fun A B k r =>
  match r with
  | Ok a => k a
  | Err e => Err e
  end.

(** An update mapping: the entries of the [data] object in iteration
    order. *)
Definition updates : Type := list (string * value).

(** Modelled from the spec: the builder's column for a key, its alias
    in the alias map or else the key itself. *)
Definition column (jsToSql : gmap string string) (colName : string) : string :=
  default colName (jsToSql !! colName).

(** Modelled from the spec: [sqlForPartialUpdate] of [helpers/sql.js],
    which is not among the sources.  An empty mapping fails with
    [InvalidArgument] ("no data") before anything is assembled; otherwise
    each key, in iteration order, gives the fragment
    [<column> = $<position>] with the column taken from the alias map
    (falling back to the key) and the position counted from 1; the clause
    is the fragments joined with [", "] and the values are the mapping's
    values in the same order. *)
Definition sqlForPartialUpdate (dataToUpdate : updates)
    (jsToSql : gmap string string) : result (string * list value) :=
  let keys := dataToUpdate.*1 in
  if (length keys =? 0)%nat then Err (InvalidArgument "no data")
  else
    let cols :=
      imap (fun idx colName =>
              column jsToSql colName +:+ " = $" +:+ Js.dec (idx + 1)) keys in
    Ok (Js.join ", " cols, dataToUpdate.*2).

(** ** Jobs *)

Module Job.

(** The destructured argument [{ minSalary, hasEquity, title }]; a
    missing property is [undefined]. *)
Record searchFilters : Type := Filters {
  minSalary : value;
  hasEquity : value;
  title : value
}.

Definition baseQuery : string :=
  "SELECT j.id," +:+ nl +:+
  "                        j.title," +:+ nl +:+
  "                        j.salary," +:+ nl +:+
  "                        j.equity," +:+ nl +:+
  "                        j.company_handle AS " +:+ dq +:+ "companyHandle" +:+ dq +:+ "," +:+ nl +:+
  "                        c.name AS " +:+ dq +:+ "companyName" +:+ dq +:+ nl +:+
  "                    FROM jobs j " +:+ nl +:+
  "                    LEFT JOIN companies AS c ON c.handle = j.company_handle".

(** The body of [findAll] up to its [db.query] call, over the two local
    arrays. *)
Definition compose (f : searchFilters) : M query :=
  when (Js.is_defined (title f))
    (push_value (VStr ("%" +:+ Js.ToString (title f) +:+ "%")) ;;
     n ← values_length ;
     push_where ("title ILIKE $" +:+ Js.dec n)) ;;
  when (Js.is_defined (minSalary f))
    (push_value (minSalary f) ;;
     n ← values_length ;
     push_where ("salary >= $" +:+ Js.dec n)) ;;
  when (Js.is_true (hasEquity f))
    (push_where "equity > 0") ;;
  s ← get_locals ;
  let baseQuery :=
    if (0 <? length (whereExpressions s))%nat
    then baseQuery +:+ " WHERE " +:+ Js.join " AND " (whereExpressions s)
    else baseQuery in
  let baseQuery := baseQuery +:+ " ORDER BY title" in
  mret {| sql := baseQuery; params := queryValues s |}.

(** [findAll]: the [db.query] call it issues, from fresh arrays. *)
Definition findAll (f : searchFilters) : result query := run (compose f).

(** The template literal of [update], with its two holes. *)
Definition querySql (setCols idVarIdx : string) : string :=
  "UPDATE jobs " +:+ nl +:+
  "                      SET " +:+ setCols +:+ " " +:+ nl +:+
  "                      WHERE id = " +:+ idVarIdx +:+ " " +:+ nl +:+
  "                      RETURNING id, " +:+ nl +:+
  "                                title, " +:+ nl +:+
  "                                salary, " +:+ nl +:+
  "                                equity," +:+ nl +:+
  "                                company_handle AS " +:+ dq +:+ "companyHandle" +:+ dq.

(** [update]: the [db.query] call it issues. *)
Definition update (id : value) (data : updates) : result query :=
  '(setCols, values) ← sqlForPartialUpdate data ∅ ;
  let idVarIdx := "$" +:+ Js.dec (length values + 1) in
  mret {| sql := querySql setCols idVarIdx; params := values ++ [id] |}.

End Job.

(** ** Companies *)

Module Company.

(** The destructured [searchFilters]: [{ name, minEmployees,
    maxEmployees }]; a missing property is [undefined]. *)
Record searchFilters : Type := Filters {
  name : value;
  minEmployees : value;
  maxEmployees : value
}.

Definition baseQuery : string :=
  "SELECT handle," +:+ nl +:+
  "                  name," +:+ nl +:+
  "                  description," +:+ nl +:+
  "                  num_employees AS " +:+ dq +:+ "numEmployees" +:+ dq +:+ "," +:+ nl +:+
  "                  logo_url AS " +:+ dq +:+ "logoUrl" +:+ dq +:+ nl +:+
  "           FROM companies".

Definition tooMany : string :=
  "Minimum employees cannot be exceed maximum number of employees.".

(** The body of [findAll] up to its [db.query] call, over the two local
    arrays.  [engine] answers [minEmployees > maxEmployees] where
    [Js.gt] does not evaluate it. *)
Definition compose (engine : value → value → bool) (f : searchFilters)
    : M query :=
  when (Js.ToBoolean (name f))
    (push_value (VStr ("%" +:+ Js.ToString (name f) +:+ "%")) ;;
     n ← values_length ;
     push_where ("name ILIKE $" +:+ Js.dec n)) ;;
  (if Js.gt engine (minEmployees f) (maxEmployees f)
   then mthrow (BadRequestError tooMany)
   else mret tt) ;;
  when (Js.is_defined (minEmployees f))
    (push_value (minEmployees f) ;;
     n ← values_length ;
     push_where ("num_employees >= $" +:+ Js.dec n)) ;;
  when (Js.is_defined (maxEmployees f))
    (push_value (maxEmployees f) ;;
     n ← values_length ;
     push_where ("num_employees <= $" +:+ Js.dec n)) ;;
  s ← get_locals ;
  let baseQuery :=
    if (0 <? length (whereExpressions s))%nat
    then baseQuery +:+ " WHERE " +:+ Js.join " AND " (whereExpressions s)
    else baseQuery in
  let baseQuery := baseQuery +:+ " ORDER BY name" in
  mret {| sql := baseQuery; params := queryValues s |}.

(** [findAll]: the [db.query] call it issues, from fresh arrays. *)
Definition findAll (engine : value → value → bool) (f : searchFilters)
    : result query :=
  run (compose engine f).

(** The alias map [update] passes to the builder. *)
Definition jsToSql : gmap string string :=
  <["numEmployees" := "num_employees"]> (<["logoUrl" := "logo_url"]> ∅).

(** The template literal of [update], with its two holes. *)
Definition querySql (setCols handleVarIdx : string) : string :=
  "UPDATE companies " +:+ nl +:+
  "                      SET " +:+ setCols +:+ " " +:+ nl +:+
  "                      WHERE handle = " +:+ handleVarIdx +:+ " " +:+ nl +:+
  "                      RETURNING handle, " +:+ nl +:+
  "                                name, " +:+ nl +:+
  "                                description, " +:+ nl +:+
  "                                num_employees AS " +:+ dq +:+ "numEmployees" +:+ dq +:+ ", " +:+ nl +:+
  "                                logo_url AS " +:+ dq +:+ "logoUrl" +:+ dq.

(** [update]: the [db.query] call it issues. *)
Definition update (handle : value) (data : updates) : result query :=
  '(setCols, values) ← sqlForPartialUpdate data jsToSql ;
  let handleVarIdx := "$" +:+ Js.dec (length values + 1) in
  mret {| sql := querySql setCols handleVarIdx;
          params := values ++ [handle] |}.

End Company.

(** ** Reading a statement's text *)

Module Sql.

Definition is_digit (c : ascii) : bool :=
  let n := nat_of_ascii c in ((48 <=? n) && (n <=? 57))%nat.

(** The longest run of decimal digits a text starts with. *)
Fixpoint digit_prefix (s : string) : string :=
  match s with
  | String c s' => if is_digit c then String c (digit_prefix s') else EmptyString
  | EmptyString => EmptyString
  end.

(** The number of the placeholder whose [$] has just been read, when
    digits follow. *)
Definition placeholder_at (s : string) : option nat :=
  match digit_prefix s with
  | EmptyString => None
  | ds => Nat.of_uint <$> NilEmpty.uint_of_string ds
  end.

(** The numbers of the positional placeholders [$n] of a statement, in
    the order they occur in its text. *)
Fixpoint placeholders (s : string) : list nat :=
  match s with
  | EmptyString => []
  | String c s' =>
      if Ascii.eqb c "$" then
        match placeholder_at s' with
        | Some n => n :: placeholders s'
        | None => placeholders s'
        end
      else placeholders s'
  end.

(** No [$] occurs in the text. *)
Fixpoint no_dollar (s : string) : bool :=
  match s with
  | String c s' => negb (Ascii.eqb c "$") && no_dollar s'
  | EmptyString => true
  end.

Fixpoint all_digits (s : string) : bool :=
  match s with
  | String c s' => is_digit c && all_digits s'
  | EmptyString => true
  end.

(** The text does not go on with a digit. *)
Definition digits_end (s : string) : bool :=
  match s with
  | String c _ => negb (is_digit c)
  | EmptyString => true
  end.

(** [needle] occurs in [hay]. *)
Fixpoint contains (needle hay : string) : bool :=
  String.prefix needle hay ||
  match hay with
  | String _ hay' => contains needle hay'
  | EmptyString => false
  end.

(** *** The SET clause *)

Definition is_ident_char (c : ascii) : bool :=
  let n := nat_of_ascii c in
  ((97 <=? n) && (n <=? 122) || (65 <=? n) && (n <=? 90)
   || (48 <=? n) && (n <=? 57) || (n =? 95))%nat.

Fixpoint all_ident (s : string) : bool :=
  match s with
  | String c s' => is_ident_char c && all_ident s'
  | EmptyString => true
  end.

(** A plain column name: letters, digits and underscores, at least one. *)
Definition is_identifier (s : string) : bool :=
  negb (String.eqb s "") && all_ident s.

(** The longest run of identifier characters a text starts with. *)
Fixpoint ident_prefix (s : string) : string :=
  match s with
  | String c s' =>
      if is_ident_char c then String c (ident_prefix s') else EmptyString
  | EmptyString => EmptyString
  end.

Fixpoint drop (n : nat) (s : string) : string :=
  match n, s with
  | S n', String _ s' => drop n' s'
  | _, _ => s
  end.

(** [s] without its prefix [p], when it starts with it. *)
Fixpoint strip (p s : string) : option string :=
  match p, s with
  | EmptyString, _ => Some s
  | String a p', String b s' => if Ascii.eqb a b then strip p' s' else None
  | String _ _, EmptyString => None
  end.

(** One assignment [column = $n] at the head of a text, and the text
    after it. *)
Definition assignment (s : string) : option ((string * nat) * string) :=
  let col := ident_prefix s in
  if String.eqb col "" then None
  else
    r ← strip " = $" (drop (String.length col) s) ;
    n ← placeholder_at r ;
    Some ((col, n), drop (String.length (digit_prefix r)) r).

(** For a statement that starts [UPDATE <table> SET], its text from the
    SET clause on. *)
Definition after_update (text : string) : option string :=
  rest ← strip "UPDATE " text ;
  let table := ident_prefix rest in
  if String.eqb table "" then None
  else strip "SET " (Js.trim_left (drop (String.length table) rest)).

(** The assignments [column = $n] a text starts with, separated by
    [", "], and the text after the last one. *)
Fixpoint assignments (fuel : nat) (s : string)
    : option (list (string * nat) * string) :=
  match fuel with
  | 0 => None
  | S fuel' =>
      '(a, rest) ← assignment s ;
      match strip ", " rest with
      | Some r => '(l, rest') ← assignments fuel' r ; Some (a :: l, rest')
      | None => Some ([a], rest)
      end
  end.

(** The SET clause of a statement [UPDATE <table> SET ... WHERE ...],
    read off its text: what stands between [SET] and [WHERE], when it
    is a comma-separated list of [column = $n]; each column assigned
    with the placeholder it is assigned from, in order.  Any other text
    is not read. *)
Definition update_set (text : string) : option (list (string * nat)) :=
  clause ← after_update text ;
  '(assigned, rest) ← assignments (String.length clause) clause ;
  if String.prefix "WHERE " (Js.trim_left rest) then Some assigned else None.

End Sql.

(** A store that executes an UPDATE on a row it matches by giving each
    column of the SET clause, in turn, the parameter of its placeholder;
    a statement it cannot read changes nothing.  It shows that the
    assumption made on the database below can be met. *)
Fixpoint assign (assigned : list (string * nat)) (parameters : list value)
    (row : gmap string value) : gmap string value :=
  match assigned with
  | [] => row
  | (col, n) :: assigned' =>
      match n with
      | 0 => assign assigned' parameters row
      | S i =>
          match parameters !! i with
          | Some v => assign assigned' parameters (<[col := v]> row)
          | None => assign assigned' parameters row
          end
      end
  end.

Definition sample_store (text : string) (parameters : list value)
    (row : gmap string value) : gmap string value :=
  match Sql.update_set text with
  | Some assigned => assign assigned parameters row
  | None => row
  end.

(** ** Vocabulary of the properties *)

(** The local arrays as a completion leaves them. *)
Definition accumulated {A} (c : completion A) : locals :=
  match c with
  | Normal _ s => s
  | Thrown _ s => s
  end.

(** A where-expression that is a pattern match. *)
Definition is_ilike (e : string) : bool := Sql.contains "ILIKE" e.

(** A composed query whose placeholders are [$1 .. $n] for its [n]
    bound values: as many placeholders as values, numbered upwards in
    the order of the text. *)
Definition numbered (r : result query) : Prop :=
  ∃ q, r = Ok q
       ∧ length (Sql.placeholders (sql q)) = length (params q)
       ∧ StronglySorted lt (Sql.placeholders (sql q))
       ∧ Sql.placeholders (sql q) = seq 1 (length (params q)).

(** The optional WHERE clause for the accumulated predicates. *)
Definition where_clause (ws : list string) : string :=
  match ws with
  | [] => ""
  | _ => " WHERE " +:+ Js.join " AND " ws
  end.

(** The accumulated arrays hold exactly one pattern predicate, it is
    [column ILIKE $n], and the value bound at position [n] is [v] wrapped
    in [%] wildcards. *)
Definition text_match (column : string) (v : value) (s : locals) : Prop :=
  ∃ n before after,
    whereExpressions s
      = (before ++ [column +:+ " ILIKE $" +:+ Js.dec n] ++ after)%list
    ∧ Forall (λ e, is_ilike e = false) before
    ∧ Forall (λ e, is_ilike e = false) after
    ∧ (0 < n)%nat
    ∧ queryValues s !! (n - 1) = Some (VStr ("%" +:+ Js.ToString v +:+ "%")).

(** The statement of an update has the placeholders [$1 .. $n] for the
    [n] values it is executed with: the mapping's values, then the
    identifier. *)
Definition update_numbered (id : value) (data : updates)
    (r : result query) : Prop :=
  ∃ q, r = Ok q
       ∧ params q = (data.*2 ++ [id])%list
       ∧ length (Sql.placeholders (sql q)) = length (params q)
       ∧ Sql.placeholders (sql q) = seq 1 (length (params q)).

(** [execute text parameters row] stands for the row a database leaves
    after executing a statement with its parameters on a row the
    statement matches.  The database is not among the sources; what is
    assumed of it is what SQL says of an UPDATE: a column that the SET
    clause does not assign keeps its value. *)
Definition changes_only_assigned
    (execute : string → list value → gmap string value → gmap string value)
    : Prop :=
  ∀ text parameters row assigned col,
    Sql.update_set text = Some assigned →
    col ∉ assigned.*1 →
    execute text parameters row !! col = row !! col.

(** The SET clause of the statement issued, read off its text, assigns
    exactly the columns of the mapping's keys, each from its own
    placeholder and in the mapping's order; and the database executing
    that statement leaves every other column of the row as it was. *)
Definition sets_only_supplied
    (execute : string → list value → gmap string value → gmap string value)
    (jsToSql : gmap string string) (data : updates)
    (r : result query) : Prop :=
  ∃ q,
    r = Ok q
    ∧ Sql.update_set (sql q)
      = Some (zip (column jsToSql <$> data.*1) (seq 1 (length data)))
    ∧ ∀ (row : gmap string value) col,
        col ∉ column jsToSql <$> data.*1 →
        execute (sql q) (params q) row !! col = row !! col.

(** ** The models against the database

    The rest of each model method: what it does with the rows
    [db.query] answers.  A method is a program that returns, throws, or
    awaits a query and goes on with its rows. *)

(** A property of a returned object: a column's primitive, or a nested
    row. *)
Inductive field : Type :=
  | Prim (v : value)
  | Obj (o : gmap string value).

Inductive prog (A : Type) : Type :=
  | Return (a : A)
  | Raise (e : error)
  | Await (q : query) (k : list (gmap string value) → prog A).
Arguments Return {A} a.
Arguments Raise {A} e.
Arguments Await {A} q k.

Fixpoint prog_bind {A B} (k : A → prog B) (p : prog A) : prog B :=
  match p with
  | Return a => k a
  | Raise e => Raise e
  | Await q k' => Await q (λ rows, prog_bind k (k' rows))
  end.

#[global] Instance prog_ret : MRet prog := @Return.
#[global] Instance prog_mbind : MBind prog := @prog_bind.
#[global] Instance prog_throw : MThrow error prog := @Raise.

(** [await db.query(text, values)], giving [result.rows]. *)
Definition db_query (text : string) (values : list value)
    : prog (list (gmap string value)) :=
  Await {| sql := text; params := values |} Return.

(** The part of a method before its query, run inside the method. *)
Definition lift {A} (r : result A) : prog A :=
  match r with
  | Ok a => Return a
  | Err e => Raise e
  end.

(** How an awaited method settles: fulfilled with a value, rejected with
    an error it threw, or rejected because [db.query] was. *)
Inductive settled (A : Type) : Type :=
  | Fulfilled (a : A)
  | Rejected (e : error)
  | DbRejected.
Arguments Fulfilled {A} a.
Arguments Rejected {A} e.
Arguments DbRejected {A}.

(** A run against a database with state [D] that answers each query
    with rows or rejects it: how the method settles, the state left, and
    the queries issued, in order. *)
Fixpoint exec {D A} (db : query → D → option (list (gmap string value)) * D)
    (p : prog A) (d : D) : settled A * D * list query :=
  match p with
  | Return a => (Fulfilled a, d, [])
  | Raise e => (Rejected e, d, [])
  | Await q k =>
      match db q d with
      | (Some rows, d') =>
          let '(o, d'', issued) := exec db (k rows) d' in
          (o, d'', q :: issued)
      | (None, d') => (DbRejected, d', [q])
      end
  end.

Module JobDb.

(** The [data] of [create]; a missing property is [undefined]. *)
Record newJob : Type := NewJob {
  title : value;
  salary : value;
  equity : value;
  companyHandle : value
}.

Definition insertSql : string :=
  "INSERT INTO jobs (title," +:+ nl +:+
  "                             salary," +:+ nl +:+
  "                             equity," +:+ nl +:+
  "                             company_handle)" +:+ nl +:+
  "           VALUES ($1, $2, $3, $4)" +:+ nl +:+
  "           RETURNING id, title, salary, equity, company_handle AS " +:+ dq +:+ "companyHandle" +:+ dq.

Definition create (data : newJob) : prog (option (gmap string value)) :=
  result ← db_query insertSql
              [title data; salary data; equity data; companyHandle data] ;
  let job := head result in
  mret job.

Definition findAll (f : Job.searchFilters) : prog (list (gmap string value)) :=
  q ← lift (Job.findAll f) ;
  results ← db_query (sql q) (params q) ;
  mret results.

Definition selectSql : string :=
  "SELECT id," +:+ nl +:+
  "                  title," +:+ nl +:+
  "                  salary," +:+ nl +:+
  "                  equity," +:+ nl +:+
  "                  company_handle AS " +:+ dq +:+ "companyHandle" +:+ dq +:+ nl +:+
  "           FROM jobs" +:+ nl +:+
  "           WHERE id = $1".

Definition companySql : string :=
  "SELECT handle," +:+ nl +:+
  "                  name," +:+ nl +:+
  "                  description," +:+ nl +:+
  "                  num_employees AS " +:+ dq +:+ "numEmployees" +:+ dq +:+ "," +:+ nl +:+
  "                  logo_url AS " +:+ dq +:+ "logoUrl" +:+ dq +:+ nl +:+
  "           FROM companies" +:+ nl +:+
  "           WHERE handle = $1".

Definition notFound (id : value) : error :=
  NotFoundError ("No job found with id: " +:+ Js.ToString id).

Definition get (id : value) : prog (gmap string field) :=
  query ← db_query selectSql [id] ;
  match head (query : list (gmap string value))
        return prog (gmap string field) with
  | None => mthrow (notFound id)
  | Some job =>
      results ← db_query companySql
                   [default VUndefined (job !! "companyHandle")] ;
      let job := delete "companyHandle" (Prim <$> job) in
      let job :=
        <["company" := from_option Obj (Prim VUndefined) (head results)]> job in
      mret job
  end.

Definition update (id : value) (data : updates) : prog (gmap string value) :=
  q ← lift (Job.update id data) ;
  result ← db_query (sql q) (params q) ;
  match head result return prog (gmap string value) with
  | None => mthrow (notFound id)
  | Some job => mret job
  end.

Definition deleteSql : string :=
  "DELETE" +:+ nl +:+
  "           FROM jobs" +:+ nl +:+
  "           WHERE id = $1" +:+ nl +:+
  "           RETURNING id".

Definition remove (id : value) : prog unit :=
  result ← db_query deleteSql [id] ;
  match head result return prog unit with
  | None => mthrow (notFound id)
  | Some _ => mret tt
  end.

End JobDb.

Module CompanyDb.

(** The destructured argument of [create]. *)
Record newCompany : Type := NewCompany {
  handle : value;
  name : value;
  description : value;
  numEmployees : value;
  logoUrl : value
}.

Definition duplicateSql : string :=
  "SELECT handle" +:+ nl +:+
  "           FROM companies" +:+ nl +:+
  "           WHERE handle = $1".

Definition insertSql : string :=
  "INSERT INTO companies" +:+ nl +:+
  "           (handle, name, description, num_employees, logo_url)" +:+ nl +:+
  "           VALUES ($1, $2, $3, $4, $5)" +:+ nl +:+
  "           RETURNING handle, name, description, num_employees AS " +:+ dq +:+ "numEmployees" +:+ dq +:+ ", logo_url AS " +:+ dq +:+ "logoUrl" +:+ dq.

Definition create (c : newCompany) : prog (option (gmap string value)) :=
  duplicateCheck ← db_query duplicateSql [handle c] ;
  match head duplicateCheck return prog (option (gmap string value)) with
  | Some _ =>
      mthrow (BadRequestError
                ("Duplicate company: " +:+ Js.ToString (handle c)))
  | None =>
      result ← db_query insertSql
                  [handle c; name c; description c; numEmployees c; logoUrl c] ;
      let company := head result in
      mret company
  end.

Definition findAll (engine : value → value → bool)
    (f : Company.searchFilters) : prog (list (gmap string value)) :=
  q ← lift (Company.findAll engine f) ;
  results ← db_query (sql q) (params q) ;
  mret results.

Definition selectSql : string :=
  "SELECT handle," +:+ nl +:+
  "                  name," +:+ nl +:+
  "                  description," +:+ nl +:+
  "                  num_employees AS " +:+ dq +:+ "numEmployees" +:+ dq +:+ "," +:+ nl +:+
  "                  logo_url AS " +:+ dq +:+ "logoUrl" +:+ dq +:+ nl +:+
  "           FROM companies" +:+ nl +:+
  "           WHERE handle = $1".

Definition notFound (handle : value) : error :=
  NotFoundError ("No company: " +:+ Js.ToString handle).

Definition get (handle : value) : prog (gmap string value) :=
  companyRes ← db_query selectSql [handle] ;
  match head companyRes return prog (gmap string value) with
  | None => mthrow (notFound handle)
  | Some company => mret company
  end.

Definition update (handle : value) (data : updates)
    : prog (gmap string value) :=
  q ← lift (Company.update handle data) ;
  result ← db_query (sql q) (params q) ;
  match head result return prog (gmap string value) with
  | None => mthrow (notFound handle)
  | Some company => mret company
  end.

Definition deleteSql : string :=
  "DELETE" +:+ nl +:+
  "           FROM companies" +:+ nl +:+
  "           WHERE handle = $1" +:+ nl +:+
  "           RETURNING handle".

Definition remove (handle : value) : prog unit :=
  result ← db_query deleteSql [handle] ;
  match head result return prog unit with
  | None => mthrow (notFound handle)
  | Some _ => mret tt
  end.

End CompanyDb.

(** Two databases to run the methods against: one that answers every
    query with no row, and one that answers its first query with a job
    row and every later one with a company row, counting the queries. *)
Definition empty_db (q : query) (d : unit)
    : option (list (gmap string value)) * unit :=
  (Some [], d).

Definition sample_db (q : query) (n : nat)
    : option (list (gmap string value)) * nat :=
  (Some
     (match n with
      | 0 => [ <["title" := VStr "Engineer"]>
                 (<["companyHandle" := VStr "acme"]> ∅) ]
      | S _ => [ <["handle" := VStr "acme"]> ∅ ]
      end),
   S n).

(** The query's placeholders are [$1 .. $n] for its [n] parameters. *)
Definition well_numbered (q : query) : Prop :=
  Sql.placeholders (sql q) = seq 1 (length (params q)).

(** Which job criteria count as supplied. *)
Definition job_presence (f : Job.searchFilters) : bool * bool * bool :=
  (Js.is_defined (Job.title f), Js.is_defined (Job.minSalary f),
   Js.is_true (Job.hasEquity f)).

(** Which company criteria count as supplied. *)
Definition company_presence (f : Company.searchFilters) : bool * bool * bool :=
  (Js.ToBoolean (Company.name f), Js.is_defined (Company.minEmployees f),
   Js.is_defined (Company.maxEmployees f)).

(** [[v]] when [b], nothing otherwise. *)
Definition supplied {A} (b : bool) (v : A) : list A :=
  if b then [v] else [].

(** ** Properties of the composers *)

Example compose_title :
  Job.findAll (Job.Filters VUndefined VUndefined (VStr "eng"))
  = Ok {| sql := Job.baseQuery +:+ " WHERE title ILIKE $1 ORDER BY title";
          params := [VStr "%eng%"] |}.
Proof. reflexivity. Qed.

Example compose_minSalary_hasEquity :
  Job.findAll (Job.Filters (VNum (Int 50000)) (VBool true) VUndefined)
  = Ok {| sql := Job.baseQuery
                   +:+ " WHERE salary >= $1 AND equity > 0 ORDER BY title";
          params := [VNum (Int 50000)] |}.
Proof. reflexivity. Qed.

Example compose_all_company_filters (engine : value → value → bool) :
  Company.findAll engine (Company.Filters (VStr "net") (VNum (Int 1)) (VNum (Int 3)))
  = Ok {| sql := Company.baseQuery
                   +:+ " WHERE name ILIKE $1 AND num_employees >= $2"
                   +:+ " AND num_employees <= $3 ORDER BY name";
          params := [VStr "%net%"; VNum (Int 1); VNum (Int 3)] |}.
Proof. reflexivity. Qed.

Example compose_one_bound (engine : value → value → bool) :
  Js.gt engine (VNum (Int 5)) VUndefined = false
  ∧ Company.findAll engine (Company.Filters VUndefined (VNum (Int 5)) VUndefined)
    = Ok {| sql := Company.baseQuery
                     +:+ " WHERE num_employees >= $1 ORDER BY name";
            params := [VNum (Int 5)] |}.
Proof. split; reflexivity. Qed.

Example compose_min_over_max (engine : value → value → bool) :
  Company.findAll engine (Company.Filters VUndefined (VNum (Int 100)) (VNum (Int 50)))
  = Err (BadRequestError Company.tooMany).
Proof. reflexivity. Qed.

Example gt_evaluated (engine : value → value → bool) :
  Js.gt engine (VNum (Int 5)) (VNum (Int 2)) = true
  ∧ Js.gt engine (VStr " 12 ") (VNum (Int 7)) = true
  ∧ Js.gt engine (VStr "10") (VStr "9") = false
  ∧ Js.gt engine (VStr "b") (VStr "a") = true
  ∧ Js.gt engine (VStr "") VNull = false
  ∧ Js.gt engine (VBool true) VNull = true
  ∧ Js.gt engine (VStr "1e3") VUndefined = false.
Proof. repeat split. Qed.

Example gt_left_to_engine (engine : value → value → bool) :
  Js.gt engine (VStr "1e3") (VNum (Int 5))
  = engine (VStr "1e3") (VNum (Int 5))
  ∧ Js.gt engine (VStr "9007199254740993") (VNum (Int 9007199254740992))
    = engine (VStr "9007199254740993") (VNum (Int 9007199254740992))
  ∧ Js.gt engine (VStr "0x10") (VStr "12.5")
    = false
  ∧ Js.gt engine (VStr "0x10") (VNum (Int 3))
    = engine (VStr "0x10") (VNum (Int 3)).
Proof. repeat split. Qed.

Example build_title_salary :
  sqlForPartialUpdate
    [("title", VStr "Engineer"); ("salary", VNum (Int 100))] ∅
  = Ok ("title = $1, salary = $2", [VStr "Engineer"; VNum (Int 100)]).
Proof. reflexivity. Qed.

Example build_aliased :
  sqlForPartialUpdate
    [("numEmployees", VNum (Int 5)); ("name", VStr "Acme")] Company.jsToSql
  = Ok ("num_employees = $1, name = $2", [VNum (Int 5); VStr "Acme"]).
Proof. reflexivity. Qed.

Ltac split_filters :=
  repeat match goal with
  | |- context [Js.is_defined ?v] => is_var v; destruct (Js.is_defined v)
  | |- context [Js.is_true ?v] => is_var v; destruct (Js.is_true v)
  | |- context [Js.ToBoolean ?v] => is_var v; destruct (Js.ToBoolean v)
  end.

Ltac evaluate_list :=
  match goal with
  | |- _ ∉ ?l => let l' := eval vm_compute in l in change l with l'
  | |- _ ∈ ?l => let l' := eval vm_compute in l in change l with l'
  end.

Ltac forall_elements :=
  match goal with
  | |- Forall ?P ?l => let l' := eval vm_compute in l in change (Forall P l')
  end;
  repeat first
    [ apply Forall_nil_2
    | apply Forall_cons_2; [first [reflexivity | by left | by right]|] ].

Lemma job_compose_numbered (f : Job.searchFilters) :
  ∃ q s, Job.compose f fresh = Normal q s
         ∧ params q = queryValues s
         ∧ Sql.placeholders (sql q) = seq 1 (length (params q)).
Proof.
  destruct f as [ms he t]. unfold Job.compose.
  cbn [Job.title Job.minSalary Job.hasEquity].
  split_filters; (do 2 eexists; split; [reflexivity|]); split; reflexivity.
Qed.

Lemma company_compose_numbered (engine : value → value → bool) (f : Company.searchFilters) :
  Js.gt engine (Company.minEmployees f) (Company.maxEmployees f) = false →
  ∃ q s, Company.compose engine f fresh = Normal q s
         ∧ params q = queryValues s
         ∧ Sql.placeholders (sql q) = seq 1 (length (params q)).
Proof.
  destruct f as [n mi ma]. unfold Company.compose.
  cbn [Company.name Company.minEmployees Company.maxEmployees].
  intros ->.
  split_filters; (do 2 eexists; split; [reflexivity|]); split; reflexivity.
Qed.

Lemma seq_increasing (a n : nat) : StronglySorted lt (seq a n).
Proof.
  revert a. induction n as [|n IH]; intros a; cbn; constructor.
  - apply IH.
  - apply Forall_forall. intros x Hx. apply elem_of_seq in Hx. lia.
Qed.

Lemma numbered_of_seq (q : query) :
  Sql.placeholders (sql q) = seq 1 (length (params q)) → numbered (Ok q).
Proof.
  intros E. exists q. split; [reflexivity|]. rewrite E.
  split; [apply length_seq|]. split; [apply seq_increasing | reflexivity].
Qed.

(** C1: every accepted combination of search criteria (any job filters;
    company filters for which [minEmployees > maxEmployees] is false,
    whatever the engine answers where it is asked) composes a statement
    with exactly as many placeholders as bound values, and the
    placeholder numbers increase strictly along the text: they are
    [$1 .. $n]. *)
Theorem findAll_placeholders_match_values (engine : value → value → bool)
    (fj : Job.searchFilters) (fc : Company.searchFilters)
    (Haccepted :
       Js.gt engine (Company.minEmployees fc) (Company.maxEmployees fc) = false) :
  numbered (Job.findAll fj) ∧ numbered (Company.findAll engine fc).
Proof.
  split.
  - destruct (job_compose_numbered fj) as (q & s & E & _ & Hq).
    unfold Job.findAll, run. rewrite E. by apply numbered_of_seq.
  - destruct (company_compose_numbered engine fc Haccepted) as (q & s & E & _ & Hq).
    unfold Company.findAll, run. rewrite E. by apply numbered_of_seq.
Qed.

Lemma findAll_placeholders_match_values_witness :
  (∀ engine, Js.gt engine (VNum (Int 10)) (VNum (Int 200)) = false)
  ∧ ∀ engine,
      numbered (Job.findAll
                  (Job.Filters (VNum (Int 50000)) (VBool true) (VStr "eng")))
      ∧ numbered (Company.findAll engine
                    (Company.Filters (VStr "net") (VNum (Int 10))
                       (VNum (Int 200)))).
Proof.
  split; [reflexivity|]. intros engine.
  apply (findAll_placeholders_match_values engine
           (Job.Filters (VNum (Int 50000)) (VBool true) (VStr "eng"))
           (Company.Filters (VStr "net") (VNum (Int 10)) (VNum (Int 200)))).
  reflexivity.
Defined.

(** C4: with every optional field absent the composer returns the base
    statement followed by the ordering clause only, with no WHERE keyword
    and no bound value; and for every accepted input (any job filters;
    company filters for which [minEmployees > maxEmployees] is false,
    whatever the engine answers where it is asked) the statement is the
    base statement, then the optional WHERE clause of the accumulated
    predicates, then the entity's ordering clause. *)
Theorem findAll_base_and_ordering (engine : value → value → bool)
    (fj : Job.searchFilters) (fc : Company.searchFilters)
    (Haccepted :
       Js.gt engine (Company.minEmployees fc) (Company.maxEmployees fc) = false) :
  (Job.findAll (Job.Filters VUndefined VUndefined VUndefined)
     = Ok {| sql := Job.baseQuery +:+ " ORDER BY title"; params := [] |}
   ∧ Sql.contains "WHERE" (Job.baseQuery +:+ " ORDER BY title") = false)
  ∧ (Company.findAll engine (Company.Filters VUndefined VUndefined VUndefined)
       = Ok {| sql := Company.baseQuery +:+ " ORDER BY name"; params := [] |}
     ∧ Sql.contains "WHERE" (Company.baseQuery +:+ " ORDER BY name") = false)
  ∧ (∃ q s, Job.compose fj fresh = Normal q s
            ∧ Job.findAll fj = Ok q
            ∧ sql q = Job.baseQuery
                        +:+ where_clause (whereExpressions s)
                        +:+ " ORDER BY title")
  ∧ (∃ q s, Company.compose engine fc fresh = Normal q s
            ∧ Company.findAll engine fc = Ok q
            ∧ sql q = Company.baseQuery
                        +:+ where_clause (whereExpressions s)
                        +:+ " ORDER BY name").
Proof.
  split; [split; reflexivity|]. split; [split; reflexivity|]. split.
  - destruct fj as [ms he t]. unfold Job.findAll, run, Job.compose.
    cbn [Job.title Job.minSalary Job.hasEquity].
    split_filters; (do 2 eexists; split; [reflexivity|]); split; reflexivity.
  - destruct fc as [n mi ma]. unfold Company.findAll, run, Company.compose.
    cbn [Company.name Company.minEmployees Company.maxEmployees] in *.
    rewrite Haccepted.
    split_filters; (do 2 eexists; split; [reflexivity|]); split; reflexivity.
Qed.

Lemma findAll_base_and_ordering_witness :
  (∀ engine, Js.gt engine VUndefined (VNum (Int 3)) = false)
  ∧ ∀ engine, ∃ q s,
      Company.compose engine
        (Company.Filters (VStr "net") VUndefined (VNum (Int 3))) fresh
      = Normal q s
      ∧ Company.findAll engine
          (Company.Filters (VStr "net") VUndefined (VNum (Int 3)))
        = Ok q
      ∧ sql q = Company.baseQuery
                  +:+ where_clause (whereExpressions s)
                  +:+ " ORDER BY name".
Proof.
  split; [reflexivity|]. intros engine.
  apply (findAll_base_and_ordering engine
           (Job.Filters VUndefined (VBool true) VUndefined)
           (Company.Filters (VStr "net") VUndefined (VNum (Int 3)))).
  reflexivity.
Defined.

Lemma job_equity_predicate (minSalary title : value) :
  let without :=
    accumulated (Job.compose (Job.Filters minSalary VUndefined title) fresh) in
  let withTrue :=
    accumulated (Job.compose (Job.Filters minSalary (VBool true) title) fresh) in
  whereExpressions withTrue
    = (whereExpressions without ++ ["equity > 0"])%list
  ∧ queryValues withTrue = queryValues without
  ∧ ("equity > 0" ∉ whereExpressions without).
Proof.
  unfold Job.compose. cbn [Job.title Job.minSalary Job.hasEquity].
  split; [|split].
  - split_filters; reflexivity.
  - split_filters; reflexivity.
  - split_filters; evaluate_list; intros Hin;
      repeat (apply elem_of_cons in Hin as [Heq|Hin]; [discriminate Heq|]);
      by apply elem_of_nil in Hin.
Qed.

(** C6: a [hasEquity] of [true] appends the fixed predicate
    [equity > 0] after the other predicates and binds nothing for it;
    absent or [false] it appends no equity predicate and the statement
    does not mention one; and whatever [hasEquity] is, the bound values
    are those of the same call without it. *)
Theorem hasEquity_fixed_predicate (minSalary title : value) :
  let without :=
    accumulated (Job.compose (Job.Filters minSalary VUndefined title) fresh) in
  let withTrue :=
    accumulated (Job.compose (Job.Filters minSalary (VBool true) title) fresh) in
  (whereExpressions withTrue
     = (whereExpressions without ++ ["equity > 0"])%list
   ∧ queryValues withTrue = queryValues without)
  ∧ Job.compose (Job.Filters minSalary (VBool false) title) fresh
    = Job.compose (Job.Filters minSalary VUndefined title) fresh
  ∧ ("equity > 0" ∉ whereExpressions without)
  ∧ (∃ q, Job.findAll (Job.Filters minSalary (VBool true) title) = Ok q
          ∧ sql q = Job.baseQuery
                      +:+ " WHERE "
                      +:+ Js.join " AND "
                            (whereExpressions without ++ ["equity > 0"])
                      +:+ " ORDER BY title")
  ∧ (∃ q, Job.findAll (Job.Filters minSalary VUndefined title) = Ok q
          ∧ Sql.contains "equity > 0" (sql q) = false)
  ∧ ∀ hasEquity, ∃ q,
      Job.findAll (Job.Filters minSalary hasEquity title) = Ok q
      ∧ params q = queryValues without.
Proof.
  destruct (job_equity_predicate minSalary title) as (Hw & Hv & Hno).
  split; [by split|]. split; [reflexivity|]. split; [exact Hno|].
  unfold Job.findAll, run, Job.compose.
  cbn [Job.title Job.minSalary Job.hasEquity].
  split; [|split].
  - split_filters; eexists; split; reflexivity.
  - split_filters; eexists; split; reflexivity.
  - intros he. split_filters; eexists; split; reflexivity.
Qed.

(** C9: only the boolean [true] adds the equity predicate; every other
    [hasEquity], a truthy string or number included, composes exactly
    what an absent [hasEquity] composes. *)
Theorem hasEquity_strictly_true (minSalary title hasEquity : value)
    (Hother : hasEquity ≠ VBool true) :
  Job.compose (Job.Filters minSalary hasEquity title) fresh
  = Job.compose (Job.Filters minSalary VUndefined title) fresh
  ∧ Job.findAll (Job.Filters minSalary hasEquity title)
    = Job.findAll (Job.Filters minSalary VUndefined title)
  ∧ ("equity > 0" ∉
       whereExpressions
         (accumulated
            (Job.compose (Job.Filters minSalary hasEquity title) fresh)))
  ∧ ("equity > 0" ∈
       whereExpressions
         (accumulated
            (Job.compose (Job.Filters minSalary (VBool true) title) fresh))).
Proof.
  assert (E : Js.is_true hasEquity = false).
  { destruct hasEquity as [| |[|]| |]; try reflexivity. by destruct Hother. }
  destruct (job_equity_predicate minSalary title) as (Hw & _ & Hno).
  cbn zeta in Hw, Hno.
  assert (Ec : Job.compose (Job.Filters minSalary hasEquity title) fresh
               = Job.compose (Job.Filters minSalary VUndefined title) fresh).
  { unfold Job.compose. cbn [Job.title Job.minSalary Job.hasEquity].
    rewrite E. reflexivity. }
  split; [exact Ec|]. split.
  - unfold Job.findAll, run. by rewrite Ec.
  - split.
    + rewrite Ec. exact Hno.
    + rewrite Hw. apply elem_of_app. right. apply list_elem_of_singleton.
      reflexivity.
Qed.

Lemma hasEquity_strictly_true_witness :
  (VStr "true" ≠ VBool true ∧ VNum (Int 1) ≠ VBool true)
  ∧ Job.findAll (Job.Filters (VNum (Int 50000)) (VStr "true") VUndefined)
    = Job.findAll (Job.Filters (VNum (Int 50000)) VUndefined VUndefined)
  ∧ Job.findAll (Job.Filters (VNum (Int 50000)) (VNum (Int 1)) VUndefined)
    = Job.findAll (Job.Filters (VNum (Int 50000)) VUndefined VUndefined).
Proof.
  split; [split; discriminate|]. split.
  - apply (hasEquity_strictly_true (VNum (Int 50000)) VUndefined (VStr "true")).
    discriminate.
  - apply (hasEquity_strictly_true (VNum (Int 50000)) VUndefined (VNum (Int 1))).
    discriminate.
Defined.

Lemma text_match_first (column : string) (v : value) (s : locals) ws vs :
  whereExpressions s = (column +:+ " ILIKE $1") :: ws →
  queryValues s = VStr ("%" +:+ Js.ToString v +:+ "%") :: vs →
  Forall (λ e, is_ilike e = false) ws →
  text_match column v s.
Proof.
  intros Hw Hv Hws. exists 1, [], ws. rewrite Hw, Hv.
  split; [reflexivity|]. split; [constructor|]. split; [exact Hws|].
  split; [lia | reflexivity].
Qed.

(** C8: for companies the presence test of [name] is truthiness: a
    truthy [name] appends its pattern predicate, a falsy one composes
    exactly what an absent one does; so with an empty-string [name] no
    pattern predicate is accumulated and only the numeric bounds are
    bound.  For jobs the test is [title !== undefined]: an empty-string
    [title] appends [title ILIKE $1], bound to ["%%"]. *)
Theorem name_truthy_title_defined (engine : value → value → bool)
    (minEmployees maxEmployees minSalary hasEquity : value) :
  let company :=
    Company.compose engine (Company.Filters (VStr "") minEmployees maxEmployees) fresh in
  let job :=
    Job.compose (Job.Filters minSalary hasEquity (VStr "")) fresh in
  (∀ name,
     if Js.ToBoolean name
     then text_match "name" name
            (accumulated
               (Company.compose engine
                  (Company.Filters name minEmployees maxEmployees) fresh))
     else Company.compose engine (Company.Filters name minEmployees maxEmployees) fresh
          = Company.compose engine
              (Company.Filters VUndefined minEmployees maxEmployees) fresh)
  ∧ (Js.ToBoolean (VStr "") = false
     ∧ company
       = Company.compose engine
           (Company.Filters VUndefined minEmployees maxEmployees) fresh
     ∧ Forall (λ e, is_ilike e = false) (whereExpressions (accumulated company))
     ∧ Forall (λ v, v = minEmployees ∨ v = maxEmployees)
         (queryValues (accumulated company)))
  ∧ (Js.is_defined (VStr "") = true
     ∧ ∃ ws vs,
         whereExpressions (accumulated job) = "title ILIKE $1" :: ws
         ∧ queryValues (accumulated job) = VStr "%%" :: vs
         ∧ Forall (λ e, is_ilike e = false) ws).
Proof.
  split; [|split].
  - intros name. unfold Company.compose.
    cbn [Company.name Company.minEmployees Company.maxEmployees].
    destruct (Js.ToBoolean name); [|reflexivity].
    destruct (Js.gt engine minEmployees maxEmployees); split_filters;
      (eapply text_match_first; [reflexivity | reflexivity | forall_elements]).
  - split; [reflexivity|]. split; [reflexivity|].
    unfold Company.compose.
    cbn [Company.name Company.minEmployees Company.maxEmployees].
    split; destruct (Js.gt engine minEmployees maxEmployees);
      split_filters; forall_elements.
  - split; [reflexivity|].
    unfold Job.compose. cbn [Job.title Job.minSalary Job.hasEquity].
    split_filters; do 2 eexists; (split; [reflexivity|]);
      (split; [reflexivity|]); forall_elements.
Qed.

(** C5, as the code has it: a [title] other than [undefined] (jobs) or a
    truthy [name] (companies) appends exactly one pattern predicate of
    the form [column ILIKE $n], and the value bound at position [n] is
    the criterion wrapped in [%] wildcards by the composer.  The text
    criterion comes first, so the predicate is the first one, [n] is 1
    and the wrapped value is the first bound value; a composed query
    carries these values. *)
Theorem text_match_wrapped (engine : value → value → bool)
    (fj : Job.searchFilters) (fc : Company.searchFilters)
    (Htitle : Js.is_defined (Job.title fj) = true)
    (Hname : Js.ToBoolean (Company.name fc) = true) :
  (text_match "title" (Job.title fj) (accumulated (Job.compose fj fresh))
   ∧ (∃ ws vs,
        whereExpressions (accumulated (Job.compose fj fresh))
        = "title ILIKE $1" :: ws
        ∧ queryValues (accumulated (Job.compose fj fresh))
          = VStr ("%" +:+ Js.ToString (Job.title fj) +:+ "%") :: vs
        ∧ Forall (λ e, is_ilike e = false) ws)
   ∧ ∃ q, Job.findAll fj = Ok q
          ∧ params q = queryValues (accumulated (Job.compose fj fresh)))
  ∧ (text_match "name" (Company.name fc)
       (accumulated (Company.compose engine fc fresh))
     ∧ (∃ ws vs,
          whereExpressions (accumulated (Company.compose engine fc fresh))
          = "name ILIKE $1" :: ws
          ∧ queryValues (accumulated (Company.compose engine fc fresh))
            = VStr ("%" +:+ Js.ToString (Company.name fc) +:+ "%") :: vs
          ∧ Forall (λ e, is_ilike e = false) ws)
     ∧ match Company.findAll engine fc with
       | Ok q =>
           params q
           = queryValues (accumulated (Company.compose engine fc fresh))
       | Err e => e = BadRequestError Company.tooMany
       end).
Proof.
  split.
  - destruct fj as [ms he t]. unfold Job.findAll, run, Job.compose.
    cbn [Job.title Job.minSalary Job.hasEquity] in *. rewrite Htitle.
    split; [|split].
    + split_filters;
        (eapply text_match_first; [reflexivity | reflexivity | forall_elements]).
    + split_filters; do 2 eexists; (split; [reflexivity|]);
        (split; [reflexivity|]); forall_elements.
    + split_filters; eexists; split; reflexivity.
  - destruct fc as [n mi ma]. unfold Company.findAll, run, Company.compose.
    cbn [Company.name Company.minEmployees Company.maxEmployees] in *.
    rewrite Hname.
    split; [|split]; destruct (Js.gt engine mi ma); split_filters;
      try reflexivity;
      first
        [ eapply text_match_first; [reflexivity | reflexivity | forall_elements]
        | do 2 eexists; (split; [reflexivity|]); (split; [reflexivity|]);
          forall_elements ].
Qed.

Lemma text_match_wrapped_witness :
  (Js.is_defined (VStr "eng") = true ∧ Js.ToBoolean (VStr "net") = true)
  ∧ text_match "title" (VStr "eng")
      (accumulated
         (Job.compose (Job.Filters VUndefined VUndefined (VStr "eng")) fresh))
  ∧ ∀ engine,
      text_match "name" (VStr "net")
        (accumulated
           (Company.compose engine
              (Company.Filters (VStr "net") VUndefined VUndefined) fresh)).
Proof.
  split; [split; reflexivity|]. split.
  - apply (text_match_wrapped (λ _ _, false)
             (Job.Filters VUndefined VUndefined (VStr "eng"))
             (Company.Filters (VStr "net") VUndefined VUndefined)
             eq_refl eq_refl).
  - intros engine.
    apply (text_match_wrapped engine
             (Job.Filters VUndefined VUndefined (VStr "eng"))
             (Company.Filters (VStr "net") VUndefined VUndefined)
             eq_refl eq_refl).
Defined.

(** C5 fails as stated: an empty-string [name] is present (it is not
    [undefined]), yet the company composer appends no pattern predicate
    and binds nothing, whatever the engine. *)
Lemma text_match_empty_name_counterexample :
  Js.is_defined (VStr "") = true
  ∧ (∀ engine,
       Company.compose engine
         (Company.Filters (VStr "") VUndefined VUndefined) fresh
       = Normal
           {| sql := Company.baseQuery +:+ " ORDER BY name"; params := [] |}
           fresh)
  ∧ ¬ ∃ engine,
        text_match "name" (VStr "")
          (accumulated
             (Company.compose engine
                (Company.Filters (VStr "") VUndefined VUndefined) fresh)).
Proof.
  split; [reflexivity|]. split; [reflexivity|].
  intros (engine & n & before & after & Hw & _).
  change (@nil string = (before ++ [("name" +:+ " ILIKE $" +:+ Js.dec n)] ++ after)%list) in Hw.
  by destruct before.
Qed.

(** C2, as the code has it: when [minEmployees > maxEmployees] the call
    fails with a [BadRequestError] carrying the message and issues no
    query; the check runs after the name criterion is handled and before
    either numeric bound, so what has been accumulated when the error is
    raised is the name predicate with its value if [name] is truthy, and
    nothing otherwise.  This holds whatever the engine answers where it
    is asked. *)
Theorem min_exceeds_max_rejected (engine : value → value → bool)
    (f : Company.searchFilters)
    (Hexceeds :
       Js.gt engine (Company.minEmployees f) (Company.maxEmployees f) = true) :
  Company.findAll engine f = Err (BadRequestError Company.tooMany)
  ∧ Company.compose engine f fresh
    = Thrown (BadRequestError Company.tooMany)
        (if Js.ToBoolean (Company.name f)
         then {| whereExpressions := ["name ILIKE $1"];
                 queryValues :=
                   [VStr ("%" +:+ Js.ToString (Company.name f) +:+ "%")] |}
         else fresh)
  ∧ Forall (λ e, Sql.contains "num_employees" e = false)
      (whereExpressions (accumulated (Company.compose engine f fresh)))
  ∧ (length (queryValues (accumulated (Company.compose engine f fresh))) ≤ 1)%nat.
Proof.
  destruct f as [n mi ma]. unfold Company.findAll, run, Company.compose.
  cbn [Company.name Company.minEmployees Company.maxEmployees] in *.
  rewrite Hexceeds.
  split; [by split_filters|]. split; [by split_filters|].
  split; split_filters; first [forall_elements | vm_compute; lia].
Qed.

Lemma min_exceeds_max_rejected_witness :
  (∀ engine, Js.gt engine (VNum (Int 5)) (VNum (Int 2)) = true)
  ∧ ∀ engine,
      Company.findAll engine
        (Company.Filters VUndefined (VNum (Int 5)) (VNum (Int 2)))
      = Err (BadRequestError Company.tooMany).
Proof.
  split; [reflexivity|]. intros engine.
  apply (min_exceeds_max_rejected engine
           (Company.Filters VUndefined (VNum (Int 5)) (VNum (Int 2)))).
  reflexivity.
Defined.

(** C2 fails as stated: with a truthy [name], the error is raised after
    the name predicate and its value have been accumulated, whatever the
    engine. *)
Lemma validation_after_name_counterexample :
  (∀ engine, Js.gt engine (VNum (Int 5)) (VNum (Int 2)) = true)
  ∧ (∀ engine,
       Company.compose engine
         (Company.Filters (VStr "net") (VNum (Int 5)) (VNum (Int 2))) fresh
       = Thrown (BadRequestError Company.tooMany)
           {| whereExpressions := ["name ILIKE $1"];
              queryValues := [VStr "%net%"] |})
  ∧ ¬ ∃ engine e,
        Company.compose engine
          (Company.Filters (VStr "net") (VNum (Int 5)) (VNum (Int 2))) fresh
        = Thrown e fresh.
Proof.
  split; [reflexivity|]. split; [reflexivity|].
  intros (engine & e & He). vm_compute in He. discriminate He.
Qed.

(** ** Reading placeholders off generated text *)

#[local] Arguments String.append !_ _ / : simpl nomatch.

Lemma append_assoc (a b c : string) : (a +:+ b) +:+ c = a +:+ b +:+ c.
Proof. induction a as [|x a IH]; cbn; [reflexivity | by rewrite IH]. Qed.

Lemma placeholders_skip (a b : string) :
  Sql.no_dollar a = true → Sql.placeholders (a +:+ b) = Sql.placeholders b.
Proof.
  induction a as [|c a IH]; cbn; [reflexivity|].
  intros [Hc Ha]%andb_prop. apply negb_true_iff in Hc. rewrite Hc. by apply IH.
Qed.

Lemma all_digits_no_dollar (s : string) :
  Sql.all_digits s = true → Sql.no_dollar s = true.
Proof.
  induction s as [|c s IH]; cbn; [reflexivity|].
  intros [Hc Hs]%andb_prop. rewrite (IH Hs), andb_true_r.
  apply negb_true_iff. destruct (Ascii.eqb_spec c "$") as [->|]; [|reflexivity].
  discriminate Hc.
Qed.

Lemma all_digits_string_of_uint (d : Decimal.uint) :
  Sql.all_digits (NilEmpty.string_of_uint d) = true.
Proof. induction d; cbn; [reflexivity | assumption ..]. Qed.

Lemma digit_prefix_run (ds rest : string) :
  Sql.all_digits ds = true → Sql.digits_end rest = true →
  Sql.digit_prefix (ds +:+ rest) = ds.
Proof.
  intros Hds Hrest. induction ds as [|c ds IH]; cbn in *.
  - destruct rest as [|c rest]; cbn in *; [reflexivity|].
    apply negb_true_iff in Hrest. by rewrite Hrest.
  - apply andb_prop in Hds as [Hc Hds]. rewrite Hc. by rewrite IH.
Qed.

Lemma dec_not_empty (n : nat) : Js.dec n ≠ "".
Proof.
  unfold Js.dec. intros E.
  pose proof (NilEmpty.usu (Nat.to_uint n)) as Hu. rewrite E in Hu.
  cbn in Hu. injection Hu as Hu.
  pose proof (Unsigned.of_to n) as Hn. rewrite <- Hu in Hn. cbn in Hn.
  subst n. discriminate E.
Qed.

Lemma placeholder_at_dec (n : nat) (rest : string) :
  Sql.digits_end rest = true →
  Sql.placeholder_at (Js.dec n +:+ rest) = Some n.
Proof.
  intros Hrest. unfold Sql.placeholder_at.
  rewrite digit_prefix_run;
    [| apply all_digits_string_of_uint | exact Hrest].
  pose proof (dec_not_empty n) as Hne.
  destruct (Js.dec n) as [|c ds] eqn:E; [by destruct Hne|].
  rewrite <- E. unfold Js.dec. rewrite NilEmpty.usu. cbn.
  by rewrite Unsigned.of_to.
Qed.

Lemma placeholders_dollar (n : nat) (rest : string) :
  Sql.digits_end rest = true →
  Sql.placeholders ("$" +:+ Js.dec n +:+ rest) = n :: Sql.placeholders rest.
Proof.
  intros Hrest. change ("$" +:+ Js.dec n +:+ rest) with (String "$" (Js.dec n +:+ rest)).
  cbn [Sql.placeholders]. rewrite Ascii.eqb_refl, placeholder_at_dec by done.
  f_equal. apply placeholders_skip, all_digits_no_dollar,
    all_digits_string_of_uint.
Qed.

Lemma join_singleton (sep x : string) : Js.join sep [x] = x.
Proof. reflexivity. Qed.

Lemma join_cons (sep x : string) (l : list string) :
  l ≠ [] → Js.join sep (x :: l) = x +:+ sep +:+ Js.join sep l.
Proof. by destruct l. Qed.

(** One fragment [column = $i], followed by text that does not go on
    with a digit, contributes placeholder [i]. *)
Lemma placeholders_fragment (col : string) (i : nat) (rest : string) :
  Sql.no_dollar col = true → Sql.digits_end rest = true →
  Sql.placeholders ((col +:+ " = $" +:+ Js.dec i) +:+ rest)
  = i :: Sql.placeholders rest.
Proof.
  intros Hcol Hrest.
  rewrite append_assoc, placeholders_skip by done.
  change (" = $" +:+ Js.dec i) with (" = " +:+ "$" +:+ Js.dec i).
  rewrite !append_assoc, placeholders_skip by reflexivity.
  by apply placeholders_dollar.
Qed.

(** The fragments for [keys], numbered from [k + 1] on and joined with
    [", "], contribute the placeholders [k + 1 ..]. *)
Lemma placeholders_fragments (jsToSql : gmap string string)
    (keys : list string) (k : nat) (rest : string) :
  Forall (λ key, Sql.no_dollar (column jsToSql key) = true) keys →
  Sql.digits_end rest = true →
  Sql.placeholders
    (Js.join ", "
       (imap (λ idx colName,
                column jsToSql colName +:+ " = $" +:+ Js.dec (k + idx + 1))
          keys) +:+ rest)
  = (seq (k + 1) (length keys) ++ Sql.placeholders rest)%list.
Proof.
  intros Hkeys Hrest. revert k.
  induction Hkeys as [|key keys Hkey Hkeys IH]; intros k; [reflexivity|].
  cbn [imap length seq]. rewrite Nat.add_0_r.
  specialize (IH (S k)).
  rewrite (imap_ext _ (λ idx colName,
             column jsToSql colName +:+ " = $" +:+ Js.dec (S k + idx + 1)))
    by (intros i x _; cbv beta delta [compose];
        by replace (k + S i + 1) with (S k + i + 1) by lia).
  destruct keys as [|key' keys].
  - cbn [imap]. rewrite join_singleton, placeholders_fragment by done.
    reflexivity.
  - rewrite join_cons by discriminate.
    rewrite append_assoc, placeholders_fragment; [|done|reflexivity].
    rewrite append_assoc, placeholders_skip by reflexivity.
    rewrite IH. cbn [length seq app].
    by replace (S (k + 1)) with (S k + 1) by lia.
Qed.

(** ** Properties of the partial updates *)

Lemma sqlForPartialUpdate_nonempty (data : updates)
    (jsToSql : gmap string string) :
  data ≠ [] →
  sqlForPartialUpdate data jsToSql
  = Ok (Js.join ", "
          (imap (λ idx colName,
                   column jsToSql colName +:+ " = $" +:+ Js.dec (0 + idx + 1))
             data.*1),
        data.*2).
Proof. destruct data; [done | reflexivity]. Qed.

Lemma company_column_no_dollar (key : string) :
  Sql.no_dollar key = true → Sql.no_dollar (column Company.jsToSql key) = true.
Proof.
  intros Hkey. unfold column, Company.jsToSql.
  destruct (decide (key = "numEmployees")) as [->|Hn]; [reflexivity|].
  destruct (decide (key = "logoUrl")) as [->|Hl]; [reflexivity|].
  rewrite !lookup_insert_ne, lookup_empty by done. exact Hkey.
Qed.

Lemma job_column (key : string) : column ∅ key = key.
Proof. unfold column. by rewrite lookup_empty. Qed.

(** C3: an empty update mapping makes the builder, and with it both
    [update]s, fail with [InvalidArgument] ("no data"): there is no
    clause, no value list and no statement.  Emptiness is the only
    thing the builder rejects. *)
Theorem empty_update_rejected (id handle : value)
    (jsToSql : gmap string string) :
  sqlForPartialUpdate [] jsToSql = Err (InvalidArgument "no data")
  ∧ Job.update id [] = Err (InvalidArgument "no data")
  ∧ Company.update handle [] = Err (InvalidArgument "no data")
  ∧ ∀ data : updates,
      match data with
      | [] => True
      | _ :: _ => ∃ setCols, sqlForPartialUpdate data jsToSql
                             = Ok (setCols, data.*2)
      end.
Proof.
  repeat split. intros [|entry data]; [exact I|].
  eexists. reflexivity.
Qed.

Lemma update_numbered_intro (id : value) (data : updates) (text : string) :
  Sql.placeholders text = seq 1 (length data + 1) →
  update_numbered id data (Ok {| sql := text; params := data.*2 ++ [id] |}).
Proof.
  intros E. eexists. split; [reflexivity|]. split; [reflexivity|].
  cbn [sql params].
  rewrite E, length_seq, length_app, length_fmap. by cbn.
Qed.

Lemma seq_snoc (n : nat) : (seq 1 n ++ [n + 1])%list = seq 1 (n + 1).
Proof. rewrite seq_app. cbn. by rewrite Nat.add_1_r. Qed.

(** C10: for every non-empty mapping the identifier placeholder is
    numbered one more than the builder's value list is long and the
    identifier is the last parameter; so, the keys being field names (no
    key contains a [$]), the statement has exactly the placeholders
    [$1 .. $n] for the [n] parameters passed to execution. *)
Theorem update_placeholders (id handle : value) (data : updates)
    (Hnonempty : data ≠ []) :
  (∃ setCols values q,
     sqlForPartialUpdate data ∅ = Ok (setCols, values)
     ∧ Job.update id data = Ok q
     ∧ sql q = Job.querySql setCols ("$" +:+ Js.dec (length values + 1))
     ∧ params q = (values ++ [id])%list
     ∧ last (params q) = Some id)
  ∧ (∃ setCols values q,
       sqlForPartialUpdate data Company.jsToSql = Ok (setCols, values)
       ∧ Company.update handle data = Ok q
       ∧ sql q = Company.querySql setCols ("$" +:+ Js.dec (length values + 1))
       ∧ params q = (values ++ [handle])%list
       ∧ last (params q) = Some handle)
  ∧ (Forall (λ key, Sql.no_dollar key = true) data.*1 →
     update_numbered id data (Job.update id data)
     ∧ update_numbered handle data (Company.update handle data)).
Proof.
  split; [|split].
  - unfold Job.update. rewrite sqlForPartialUpdate_nonempty by done.
    do 3 eexists. split; [reflexivity|]. split; [reflexivity|].
    cbn [sql params]. split; [reflexivity|].
    split; [reflexivity | apply last_snoc].
  - unfold Company.update. rewrite sqlForPartialUpdate_nonempty by done.
    do 3 eexists. split; [reflexivity|]. split; [reflexivity|].
    cbn [sql params]. split; [reflexivity|].
    split; [reflexivity | apply last_snoc].
  - intros Hkeys. split.
    + unfold Job.update. rewrite sqlForPartialUpdate_nonempty by done.
      apply update_numbered_intro. unfold Job.querySql.
      rewrite 3 placeholders_skip by reflexivity.
      rewrite placeholders_fragments; [| |reflexivity].
      * rewrite 3 placeholders_skip by reflexivity.
        rewrite append_assoc, placeholders_dollar by reflexivity.
        rewrite !length_fmap. cbn [Nat.add].
        by rewrite <- seq_snoc.
      * eapply Forall_impl; [exact Hkeys|]. intros key Hk.
        by rewrite job_column.
    + unfold Company.update. rewrite sqlForPartialUpdate_nonempty by done.
      apply update_numbered_intro. unfold Company.querySql.
      rewrite 3 placeholders_skip by reflexivity.
      rewrite placeholders_fragments; [| |reflexivity].
      * rewrite 3 placeholders_skip by reflexivity.
        rewrite append_assoc, placeholders_dollar by reflexivity.
        rewrite !length_fmap. cbn [Nat.add].
        by rewrite <- seq_snoc.
      * eapply Forall_impl; [exact Hkeys|]. apply company_column_no_dollar.
Qed.

Lemma update_placeholders_witness :
  ([("title", VStr "Engineer"); ("salary", VNum (Int 100))] ≠ []
   ∧ Forall (λ key, Sql.no_dollar key = true) ["title"; "salary"])
  ∧ update_numbered (VNum (Int 7))
      [("title", VStr "Engineer"); ("salary", VNum (Int 100))]
      (Job.update (VNum (Int 7))
         [("title", VStr "Engineer"); ("salary", VNum (Int 100))]).
Proof.
  split; [split; [discriminate | by repeat constructor]|].
  apply (update_placeholders (VNum (Int 7)) (VStr "c1")
           [("title", VStr "Engineer"); ("salary", VNum (Int 100))]).
  - discriminate.
  - by repeat constructor.
Defined.

(** ** Reading the SET clause back *)

Lemma length_append (a b : string) :
  String.length (a +:+ b) = String.length a + String.length b.
Proof. induction a as [|c a IH]; cbn; [reflexivity | by rewrite IH]. Qed.

Lemma drop_length (a rest : string) :
  Sql.drop (String.length a) (a +:+ rest) = rest.
Proof. induction a as [|c a IH]; cbn; [by destruct rest | exact IH]. Qed.

Lemma ident_prefix_run (col rest : string) :
  Sql.all_ident col = true → Sql.ident_prefix rest = "" →
  Sql.ident_prefix (col +:+ rest) = col.
Proof.
  intros Hcol Hrest. induction col as [|c col IH]; cbn; [exact Hrest|].
  cbn in Hcol. apply andb_prop in Hcol as [Hc Hcol]. rewrite Hc.
  by rewrite IH.
Qed.

Lemma strip_append (p rest : string) : Sql.strip p (p +:+ rest) = Some rest.
Proof.
  induction p as [|c p IH]; cbn; [by destruct rest|].
  by rewrite Ascii.eqb_refl.
Qed.

Lemma assignment_fragment (col : string) (i : nat) (rest : string) :
  Sql.is_identifier col = true → Sql.digits_end rest = true →
  Sql.assignment ((col +:+ " = $" +:+ Js.dec i) +:+ rest)
  = Some ((col, i), rest).
Proof.
  intros [Hne Hcol]%andb_prop Hrest. unfold Sql.assignment.
  rewrite !append_assoc, ident_prefix_run by done.
  apply negb_true_iff in Hne. rewrite Hne.
  rewrite drop_length, strip_append. cbn [mbind option_bind].
  rewrite placeholder_at_dec by done. cbn [mbind option_bind].
  rewrite digit_prefix_run, drop_length;
    [reflexivity | apply all_digits_string_of_uint | exact Hrest].
Qed.

(** Reading the joined fragments for [keys], followed by text that is no
    further assignment, gives each key's column with its position, in
    order, and that text. *)
Lemma assignments_fragments (jsToSql : gmap string string)
    (keys : list string) (k fuel : nat) (tail : string) :
  keys ≠ [] → length keys ≤ fuel →
  Forall (λ key, Sql.is_identifier (column jsToSql key) = true) keys →
  Sql.digits_end tail = true → Sql.strip ", " tail = None →
  Sql.assignments fuel
    (Js.join ", "
       (imap (λ idx colName,
                column jsToSql colName +:+ " = $" +:+ Js.dec (k + idx + 1))
          keys) +:+ tail)
  = Some (zip (column jsToSql <$> keys) (seq (k + 1) (length keys)), tail).
Proof.
  intros Hne Hfuel Hkeys Hdigits Htail. revert k fuel Hne Hfuel.
  induction Hkeys as [|key keys Hkey Hkeys IH]; intros k fuel Hne Hfuel;
    [done|].
  destruct fuel as [|fuel]; [cbn in Hfuel; lia|].
  cbn [imap length seq fmap list_fmap zip zip_with]. rewrite Nat.add_0_r.
  rewrite (imap_ext _ (λ idx colName,
             column jsToSql colName +:+ " = $" +:+ Js.dec (S k + idx + 1)))
    by (intros i x _; cbv beta delta [compose];
        by replace (k + S i + 1) with (S k + i + 1) by lia).
  destruct keys as [|key' keys].
  - cbn [imap]. rewrite join_singleton. cbn [Sql.assignments].
    rewrite assignment_fragment by done.
    cbn [mbind option_bind]. by rewrite Htail.
  - rewrite join_cons by discriminate.
    cbn [Sql.assignments].
    rewrite append_assoc, assignment_fragment; [|done|reflexivity].
    cbn [mbind option_bind]. rewrite append_assoc, strip_append.
    rewrite (IH (S k) fuel) by (cbn in *; first [discriminate | lia]).
    cbn [mbind option_bind length seq].
    by replace (S (k + 1)) with (S k + 1) by lia.
Qed.

Lemma join_length (sep : string) (l : list string) :
  Forall (λ x, x ≠ "") l → length l ≤ String.length (Js.join sep l).
Proof.
  induction 1 as [|x l Hx Hl IH]; [cbn; lia|].
  destruct l as [|y l].
  - rewrite join_singleton. destruct x; [done | cbn; lia].
  - rewrite join_cons, !length_append by discriminate.
    destruct x; [done|]. cbn in *. lia.
Qed.

Lemma company_column_identifier (key : string) :
  Sql.is_identifier key = true →
  Sql.is_identifier (column Company.jsToSql key) = true.
Proof.
  intros Hkey. unfold column, Company.jsToSql.
  destruct (decide (key = "numEmployees")) as [->|Hn]; [reflexivity|].
  destruct (decide (key = "logoUrl")) as [->|Hl]; [reflexivity|].
  rewrite !lookup_insert_ne, lookup_empty by done. exact Hkey.
Qed.

Lemma fragments_not_empty (jsToSql : gmap string string)
    (keys : list string) (k : nat) :
  Forall (λ x, x ≠ "")
    (imap (λ idx colName,
             column jsToSql colName +:+ " = $" +:+ Js.dec (k + idx + 1)) keys).
Proof.
  apply Forall_lookup. intros i x. rewrite list_lookup_imap.
  destruct (keys !! i) as [key|]; [|done]. cbn. intros [= <-].
  by destruct (column jsToSql key).
Qed.

(** A statement [UPDATE <table> SET ...] whose text from there on is the
    builder's clause for plain column names, going on to [WHERE], reads
    back as one assignment per key. *)
Lemma update_set_fragments (jsToSql : gmap string string)
    (keys : list string) (text tail : string) :
  keys ≠ [] →
  Forall (λ key, Sql.is_identifier (column jsToSql key) = true) keys →
  Sql.after_update text
  = Some (Js.join ", "
            (imap (λ idx colName,
                     column jsToSql colName
                       +:+ " = $" +:+ Js.dec (0 + idx + 1)) keys)
          +:+ tail) →
  Sql.digits_end tail = true → Sql.strip ", " tail = None →
  String.prefix "WHERE " (Js.trim_left tail) = true →
  Sql.update_set text
  = Some (zip (column jsToSql <$> keys) (seq 1 (length keys))).
Proof.
  intros Hne Hkeys Hafter Hdigits Htail Hwhere. unfold Sql.update_set.
  rewrite Hafter. cbn [mbind option_bind].
  rewrite (assignments_fragments jsToSql keys 0 _ tail); try done.
  - cbn [mbind option_bind]. by rewrite Hwhere.
  - rewrite length_append.
    etrans; [|apply Nat.le_add_r].
    etrans; [|apply join_length, fragments_not_empty].
    by rewrite length_imap.
Qed.

Lemma job_statement_clause (setCols idVarIdx : string) :
  ∃ tail,
    Sql.after_update (Job.querySql setCols idVarIdx) = Some (setCols +:+ tail)
    ∧ Sql.digits_end tail = true
    ∧ Sql.strip ", " tail = None
    ∧ String.prefix "WHERE " (Js.trim_left tail) = true.
Proof.
  eexists. split; [lazy; reflexivity|].
  split; [reflexivity|]. split; reflexivity.
Qed.

Lemma company_statement_clause (setCols handleVarIdx : string) :
  ∃ tail,
    Sql.after_update (Company.querySql setCols handleVarIdx)
    = Some (setCols +:+ tail)
    ∧ Sql.digits_end tail = true
    ∧ Sql.strip ", " tail = None
    ∧ String.prefix "WHERE " (Js.trim_left tail) = true.
Proof.
  eexists. split; [lazy; reflexivity|].
  split; [reflexivity|]. split; reflexivity.
Qed.

Lemma assign_frame (assigned : list (string * nat))
    (parameters : list value) (row : gmap string value) (col : string) :
  col ∉ assigned.*1 → assign assigned parameters row !! col = row !! col.
Proof.
  revert row. induction assigned as [|[c n] assigned IH]; intros row;
    [done|].
  cbn. intros [Hc Hcol]%not_elem_of_cons.
  destruct n as [|i]; [by apply IH|].
  destruct (parameters !! i) as [v|]; [|by apply IH].
  rewrite (IH _ Hcol). by apply lookup_insert_ne.
Qed.

Lemma sample_store_frame : changes_only_assigned sample_store.
Proof.
  intros text parameters row assigned col Hread Hcol.
  unfold sample_store. rewrite Hread. by apply assign_frame.
Qed.

Example sample_store_updates :
  ∃ q, Job.update (VNum (Int 7)) [("title", VStr "Engineer")] = Ok q
       ∧ Sql.update_set (sql q) = Some [("title", 1)]
       ∧ sample_store (sql q) (params q)
           (<["title" := VStr "Clerk"]> (<["salary" := VNum (Int 100)]> ∅))
         !! "title" = Some (VStr "Engineer")
       ∧ sample_store (sql q) (params q)
           (<["title" := VStr "Clerk"]> (<["salary" := VNum (Int 100)]> ∅))
         !! "salary" = Some (VNum (Int 100)).
Proof.
  eexists. split; [reflexivity|]. split; [reflexivity|].
  split; reflexivity.
Qed.

(** C7: for a mapping of field names (every key an identifier), the SET
    clause of the statement [update] issues, read off the statement's
    text, assigns exactly the columns of the supplied keys, each from
    its own placeholder; so, on a database that changes only the columns
    a SET clause assigns, every other column of the updated row keeps
    its value. *)
Theorem partial_update_frame
    (execute : string → list value → gmap string value → gmap string value)
    (Hsql : changes_only_assigned execute)
    (id handle : value) (data : updates)
    (Hnonempty : data ≠ [])
    (Hkeys : Forall (λ key, Sql.is_identifier key = true) data.*1) :
  sets_only_supplied execute ∅ data (Job.update id data)
  ∧ sets_only_supplied execute Company.jsToSql data
      (Company.update handle data).
Proof.
  assert (Hne : data.*1 ≠ []) by by destruct data.
  assert (Hframe : ∀ jsToSql text parameters,
             Sql.update_set text
             = Some (zip (column jsToSql <$> data.*1) (seq 1 (length data))) →
             ∀ (row : gmap string value) col,
               col ∉ column jsToSql <$> data.*1 →
               execute text parameters row !! col = row !! col).
  { intros jsToSql text parameters Hread row col Hcol.
    apply (Hsql _ _ _ _ _ Hread).
    rewrite fst_zip; [exact Hcol|].
    rewrite length_seq, !length_fmap. lia. }
  assert (Hread : ∀ jsToSql text tail,
             Forall (λ key, Sql.is_identifier (column jsToSql key) = true)
               data.*1 →
             Sql.after_update text
             = Some (Js.join ", "
                       (imap (λ idx colName,
                                column jsToSql colName
                                  +:+ " = $" +:+ Js.dec (0 + idx + 1))
                          data.*1)
                     +:+ tail) →
             Sql.digits_end tail = true → Sql.strip ", " tail = None →
             String.prefix "WHERE " (Js.trim_left tail) = true →
             Sql.update_set text
             = Some (zip (column jsToSql <$> data.*1) (seq 1 (length data)))).
  { intros jsToSql text tail Hcols Hafter Hdigits Htail Hwhere.
    rewrite <- (length_fmap fst data).
    by apply (update_set_fragments jsToSql data.*1 text tail). }
  split.
  - unfold Job.update. rewrite sqlForPartialUpdate_nonempty by done.
    eexists. split; [reflexivity|]. cbn [sql params].
    destruct (job_statement_clause
                (Js.join ", "
                   (imap (λ idx colName,
                            column ∅ colName +:+ " = $" +:+ Js.dec (0 + idx + 1))
                      data.*1))
                ("$" +:+ Js.dec (length data.*2 + 1)))
      as (tail & Hafter & Hdigits & Htail & Hwhere).
    assert (Hcols : Forall (λ key, Sql.is_identifier (column ∅ key) = true)
                      data.*1).
    { eapply Forall_impl; [exact Hkeys|]. intros key Hk.
      by rewrite job_column. }
    split; [|apply Hframe]; by apply (Hread ∅ _ tail).
  - unfold Company.update. rewrite sqlForPartialUpdate_nonempty by done.
    eexists. split; [reflexivity|]. cbn [sql params].
    destruct (company_statement_clause
                (Js.join ", "
                   (imap (λ idx colName,
                            column Company.jsToSql colName
                              +:+ " = $" +:+ Js.dec (0 + idx + 1))
                      data.*1))
                ("$" +:+ Js.dec (length data.*2 + 1)))
      as (tail & Hafter & Hdigits & Htail & Hwhere).
    assert (Hcols : Forall (λ key,
                        Sql.is_identifier (column Company.jsToSql key) = true)
                      data.*1).
    { eapply Forall_impl; [exact Hkeys|]. apply company_column_identifier. }
    split; [|apply Hframe]; by apply (Hread Company.jsToSql _ tail).
Qed.

Lemma partial_update_frame_witness :
  (changes_only_assigned sample_store
   ∧ [("numEmployees", VNum (Int 5)); ("name", VStr "Acme")] ≠ []
   ∧ Forall (λ key, Sql.is_identifier key = true) ["numEmployees"; "name"])
  ∧ sets_only_supplied sample_store Company.jsToSql
      [("numEmployees", VNum (Int 5)); ("name", VStr "Acme")]
      (Company.update (VStr "acme")
         [("numEmployees", VNum (Int 5)); ("name", VStr "Acme")]).
Proof.
  split;
    [split; [exact sample_store_frame
            |split; [discriminate | by repeat constructor]]|].
  apply (partial_update_frame sample_store sample_store_frame
           (VNum (Int 7)) (VStr "acme")
           [("numEmployees", VNum (Int 5)); ("name", VStr "Acme")]).
  - discriminate.
  - by repeat constructor.
Defined.

(** ** Further properties of the composers *)

Lemma gt_undefined (engine : value → value → bool) (v : value) :
  Js.gt engine VUndefined v = false ∧ Js.gt engine v VUndefined = false.
Proof.
  split.
  - unfold Js.gt. cbn. by destruct (Js.known_number v) as [[|z]|].
  - destruct v as [| |b|n|s]; cbn; try reflexivity.
    + by destruct b.
    + by destruct n.
    + by destruct (Js.plain_integer s).
Qed.

Lemma gt_irrefl (engine : value → value → bool) (v : value) :
  Js.gt engine v v = false.
Proof.
  destruct v as [| |b|n|s]; cbn; try reflexivity.
  - by destruct b.
  - destruct n; [reflexivity | apply Z.ltb_irrefl].
  - by rewrite String.eqb_refl.
Qed.

Lemma company_findAll_spec (engine : value → value → bool) (f : Company.searchFilters) :
  Company.findAll engine f
  = if Js.gt engine (Company.minEmployees f) (Company.maxEmployees f)
    then Err (BadRequestError Company.tooMany)
    else
      let n := Js.ToBoolean (Company.name f) in
      let lo := Js.is_defined (Company.minEmployees f) in
      let hi := Js.is_defined (Company.maxEmployees f) in
      let named :=
        supplied n (VStr ("%" +:+ Js.ToString (Company.name f) +:+ "%")) in
      let lower := supplied lo (Company.minEmployees f) in
      Ok {| sql :=
              Company.baseQuery
                +:+ where_clause
                      (supplied n "name ILIKE $1"
                       ++ supplied lo
                            ("num_employees >= $"
                               +:+ Js.dec (length named + 1))
                       ++ supplied hi
                            ("num_employees <= $"
                               +:+ Js.dec (length named + length lower + 1)))
                +:+ " ORDER BY name";
            params :=
              named ++ lower ++ supplied hi (Company.maxEmployees f) |}.
Proof.
  destruct f as [n mi ma]. unfold Company.findAll, run, Company.compose.
  cbn [Company.name Company.minEmployees Company.maxEmployees].
  destruct (Js.gt engine mi ma); split_filters; reflexivity.
Qed.

Lemma job_findAll_spec (f : Job.searchFilters) :
  let t := Js.is_defined (Job.title f) in
  let lo := Js.is_defined (Job.minSalary f) in
  let named :=
    supplied t (VStr ("%" +:+ Js.ToString (Job.title f) +:+ "%")) in
  Job.findAll f
  = Ok {| sql :=
            Job.baseQuery
              +:+ where_clause
                    (supplied t "title ILIKE $1"
                     ++ supplied lo
                          ("salary >= $" +:+ Js.dec (length named + 1))
                     ++ supplied (Js.is_true (Job.hasEquity f)) "equity > 0")
              +:+ " ORDER BY title";
          params := named ++ supplied lo (Job.minSalary f) |}.
Proof.
  destruct f as [ms he t]. unfold Job.findAll, run, Job.compose.
  cbn [Job.title Job.minSalary Job.hasEquity].
  split_filters; reflexivity.
Qed.

(** X1: [findAll] in closed form.  The bound values are, in this order,
    the wrapped text criterion (when supplied), the minimum as given
    (when not [undefined]) and, for companies, the maximum as given; the
    predicates follow the same order, each numeric one numbered by the
    values bound so far, with [equity > 0] last for jobs; a company
    request whose minimum exceeds its maximum gives the error instead. *)
Theorem findAll_closed_form (engine : value → value → bool)
    (fj : Job.searchFilters) (fc : Company.searchFilters) :
  (let t := Js.is_defined (Job.title fj) in
   let lo := Js.is_defined (Job.minSalary fj) in
   let named :=
     supplied t (VStr ("%" +:+ Js.ToString (Job.title fj) +:+ "%")) in
   Job.findAll fj
   = Ok {| sql :=
             Job.baseQuery
               +:+ where_clause
                     (supplied t "title ILIKE $1"
                      ++ supplied lo
                           ("salary >= $" +:+ Js.dec (length named + 1))
                      ++ supplied (Js.is_true (Job.hasEquity fj)) "equity > 0")
               +:+ " ORDER BY title";
           params := named ++ supplied lo (Job.minSalary fj) |})
  ∧ Company.findAll engine fc
    = if Js.gt engine (Company.minEmployees fc) (Company.maxEmployees fc)
      then Err (BadRequestError Company.tooMany)
      else
        let n := Js.ToBoolean (Company.name fc) in
        let lo := Js.is_defined (Company.minEmployees fc) in
        let hi := Js.is_defined (Company.maxEmployees fc) in
        let named :=
          supplied n (VStr ("%" +:+ Js.ToString (Company.name fc) +:+ "%")) in
        let lower := supplied lo (Company.minEmployees fc) in
        Ok {| sql :=
                Company.baseQuery
                  +:+ where_clause
                        (supplied n "name ILIKE $1"
                         ++ supplied lo
                              ("num_employees >= $"
                                 +:+ Js.dec (length named + 1))
                         ++ supplied hi
                              ("num_employees <= $"
                                 +:+ Js.dec (length named + length lower + 1)))
                  +:+ " ORDER BY name";
              params :=
                named ++ lower ++ supplied hi (Company.maxEmployees fc) |}.
Proof. split; [apply job_findAll_spec | apply company_findAll_spec]. Qed.

(** X2: the statement text depends only on which criteria are supplied,
    never on their values: two accepted requests that supply the same
    criteria compose the same text, whatever the criteria hold. *)
Theorem findAll_text_ignores_values (engine : value → value → bool)
    (fj fj' : Job.searchFilters) (fc fc' : Company.searchFilters)
    (Hjob : job_presence fj = job_presence fj')
    (Hcompany : company_presence fc = company_presence fc')
    (Hfc : Js.gt engine (Company.minEmployees fc) (Company.maxEmployees fc) = false)
    (Hfc' : Js.gt engine (Company.minEmployees fc') (Company.maxEmployees fc') = false) :
  (∃ q q', Job.findAll fj = Ok q ∧ Job.findAll fj' = Ok q' ∧ sql q = sql q')
  ∧ (∃ q q', Company.findAll engine fc = Ok q ∧ Company.findAll engine fc' = Ok q'
             ∧ sql q = sql q').
Proof.
  split.
  - rewrite (job_findAll_spec fj), (job_findAll_spec fj').
    unfold job_presence in Hjob. injection Hjob as -> -> ->.
    do 2 eexists. split; [reflexivity|]. split; [reflexivity|].
    cbn [sql]. by destruct (Js.is_defined (Job.title fj')).
  - rewrite (company_findAll_spec engine fc), (company_findAll_spec engine fc'),
      Hfc, Hfc'.
    unfold company_presence in Hcompany. injection Hcompany as -> -> ->.
    do 2 eexists. split; [reflexivity|]. split; [reflexivity|].
    cbn [sql].
    by destruct (Js.ToBoolean (Company.name fc')),
      (Js.is_defined (Company.minEmployees fc')).
Qed.

Lemma findAll_text_ignores_values_witness :
  (job_presence (Job.Filters VUndefined VUndefined (VStr "eng"))
   = job_presence
       (Job.Filters VUndefined (VBool false) (VStr "x' OR $2 = $2 --"))
   ∧ company_presence (Company.Filters (VStr "net") (VNum (Int 1)) VUndefined)
     = company_presence
         (Company.Filters (VNum (Int 7)) (VStr "many") VUndefined))
  ∧ ∀ engine,
      (∃ q q',
         Job.findAll (Job.Filters VUndefined VUndefined (VStr "eng")) = Ok q
         ∧ Job.findAll
             (Job.Filters VUndefined (VBool false) (VStr "x' OR $2 = $2 --"))
           = Ok q'
         ∧ sql q = sql q')
      ∧ ∃ q q',
          Company.findAll engine
            (Company.Filters (VStr "net") (VNum (Int 1)) VUndefined) = Ok q
          ∧ Company.findAll engine
              (Company.Filters (VNum (Int 7)) (VStr "many") VUndefined) = Ok q'
          ∧ sql q = sql q'.
Proof.
  split; [split; reflexivity|]. intros engine.
  apply (findAll_text_ignores_values engine
           (Job.Filters VUndefined VUndefined (VStr "eng"))
           (Job.Filters VUndefined (VBool false) (VStr "x' OR $2 = $2 --"))
           (Company.Filters (VStr "net") (VNum (Int 1)) VUndefined)
           (Company.Filters (VNum (Int 7)) (VStr "many") VUndefined));
    reflexivity.
Defined.

(** X3: a request with only one numeric bound, or with the same value
    for both, is never rejected, whatever the values are. *)
Theorem one_sided_or_equal_bounds_accepted (engine : value → value → bool) (name v : value) :
  (∃ q, Company.findAll engine (Company.Filters name v VUndefined) = Ok q)
  ∧ (∃ q, Company.findAll engine (Company.Filters name VUndefined v) = Ok q)
  ∧ (∃ q, Company.findAll engine (Company.Filters name v v) = Ok q).
Proof.
  destruct (gt_undefined engine v) as [Hl Hr].
  pose proof (gt_irrefl engine v) as Hi.
  repeat split; rewrite company_findAll_spec;
    cbn [Company.minEmployees Company.maxEmployees];
    rewrite ?Hl, ?Hr, ?Hi; by eexists.
Qed.

(** X4: integer bounds are rejected exactly when the minimum is greater
    than the maximum. *)
Theorem integer_bounds_rejected_iff (engine : value → value → bool) (name : value) (lo hi : Z) :
  Company.findAll engine (Company.Filters name (VNum (Int lo)) (VNum (Int hi)))
  = Err (BadRequestError Company.tooMany)
  ↔ (hi < lo)%Z.
Proof.
  rewrite company_findAll_spec.
  cbn [Company.minEmployees Company.maxEmployees Js.gt Js.known_number].
  destruct (Z.ltb_spec hi lo); split; try done; lia.
Qed.

(** ** Properties of the methods against the database *)

Section Database.

Context {D : Type}.
Variable db : query → D → option (list (gmap string value)) * D.
Variable engine : value → value → bool.

Lemma exec_job_findAll (f : Job.searchFilters) (d : D) :
  ∃ q, Job.findAll f = Ok q
       ∧ well_numbered q
       ∧ exec db (JobDb.findAll f) d
         = match db q d with
           | (Some rows, d') => (Fulfilled rows, d', [q])
           | (None, d') => (DbRejected, d', [q])
           end.
Proof.
  destruct (job_compose_numbered f) as (q & s & E & _ & Hq).
  exists q. unfold JobDb.findAll, Job.findAll, run. rewrite E.
  split; [reflexivity|]. split; [exact Hq|].
  destruct q as [text values]. cbn. by destruct (db _ d) as [[rows|] d'].
Qed.

Lemma exec_company_findAll (f : Company.searchFilters) (d : D) :
  Js.gt engine (Company.minEmployees f) (Company.maxEmployees f) = false →
  ∃ q, Company.findAll engine f = Ok q
       ∧ well_numbered q
       ∧ exec db (CompanyDb.findAll engine f) d
         = match db q d with
           | (Some rows, d') => (Fulfilled rows, d', [q])
           | (None, d') => (DbRejected, d', [q])
           end.
Proof.
  intros Hgt.
  destruct (company_compose_numbered engine f Hgt) as (q & s & E & _ & Hq).
  exists q. unfold CompanyDb.findAll, Company.findAll, run. rewrite E.
  split; [reflexivity|]. split; [exact Hq|].
  destruct q as [text values]. cbn. by destruct (db _ d) as [[rows|] d'].
Qed.

(** X6: whatever the arguments and whatever the database answers, every
    query that [create], [findAll], [get] and [remove] issue has exactly
    the placeholders [$1 .. $n] for the [n] parameters sent with it. *)
Theorem issued_queries_numbered (d : D)
    (data : JobDb.newJob) (c : CompanyDb.newCompany) (id handle : value)
    (fj : Job.searchFilters) (fc : Company.searchFilters) :
  Forall well_numbered (exec db (JobDb.create data) d).2
  ∧ Forall well_numbered (exec db (JobDb.findAll fj) d).2
  ∧ Forall well_numbered (exec db (JobDb.get id) d).2
  ∧ Forall well_numbered (exec db (JobDb.remove id) d).2
  ∧ Forall well_numbered (exec db (CompanyDb.create c) d).2
  ∧ Forall well_numbered (exec db (CompanyDb.findAll engine fc) d).2
  ∧ Forall well_numbered (exec db (CompanyDb.get handle) d).2
  ∧ Forall well_numbered (exec db (CompanyDb.remove handle) d).2.
Proof.
  assert (Hone : ∀ q, well_numbered q → Forall well_numbered [q])
    by (intros; by apply Forall_singleton).
  repeat split.
  - unfold JobDb.create. cbn.
    destruct (db _ d) as [[rows|] d']; cbn; by apply Hone.
  - destruct (exec_job_findAll fj d) as (q & _ & Hq & ->).
    destruct (db q d) as [[rows|] d']; cbn; by apply Hone.
  - unfold JobDb.get. cbn.
    destruct (db _ d) as [[[|job rows]|] d']; cbn; try by apply Hone.
    destruct (db _ d') as [[rows'|] d'']; cbn;
      by repeat apply Forall_cons_2; try apply Forall_nil_2.
  - unfold JobDb.remove. cbn.
    destruct (db _ d) as [[[|row rows]|] d']; cbn; by apply Hone.
  - unfold CompanyDb.create. cbn.
    destruct (db _ d) as [[[|row rows]|] d']; cbn; try by apply Hone.
    destruct (db _ d') as [[rows'|] d'']; cbn;
      by repeat apply Forall_cons_2; try apply Forall_nil_2.
  - destruct (Js.gt engine (Company.minEmployees fc) (Company.maxEmployees fc))
      eqn:Hgt.
    + unfold CompanyDb.findAll. rewrite company_findAll_spec, Hgt. cbn.
      apply Forall_nil_2.
    + destruct (exec_company_findAll fc d Hgt) as (q & _ & Hq & ->).
      destruct (db q d) as [[rows|] d']; cbn; by apply Hone.
  - unfold CompanyDb.get. cbn.
    destruct (db _ d) as [[[|row rows]|] d']; cbn; by apply Hone.
  - unfold CompanyDb.remove. cbn.
    destruct (db _ d) as [[[|row rows]|] d']; cbn; by apply Hone.
Qed.

Lemma exec_bind_query {A} (text : string) (values : list value)
    (k : list (gmap string value) → prog A) (d : D) :
  exec db (db_query text values ≫= k) d
  = match db {| sql := text; params := values |} d with
    | (Some rows, d') =>
        let '(o, d'', issued) := exec db (k rows) d' in
        (o, d'', {| sql := text; params := values |} :: issued)
    | (None, d') => (DbRejected, d', [ {| sql := text; params := values |} ])
    end.
Proof. reflexivity. Qed.

Lemma exec_ret {A} (a : A) (d : D) : exec db (mret a) d = (Fulfilled a, d, []).
Proof. reflexivity. Qed.

Lemma exec_throw {A} (e : error) (d : D) :
  exec db (mthrow e : prog A) d = (Rejected e, d, []).
Proof. reflexivity. Qed.

Ltac settle :=
  cbn [head fst snd]; cbv beta iota zeta;
  rewrite ?exec_ret, ?exec_throw; cbn [fst snd].

(** X7: [Company.create] sends its INSERT only after the duplicate
    check was answered with no row.  When the check finds a row the
    method rejects with [BadRequestError] naming the handle, having
    asked the database once; when the check itself is rejected nothing
    more is sent. *)
Theorem create_checks_duplicates (d : D) (c : CompanyDb.newCompany) :
  let check :=
    {| sql := CompanyDb.duplicateSql; params := [CompanyDb.handle c] |} in
  let insert :=
    {| sql := CompanyDb.insertSql;
       params := [CompanyDb.handle c; CompanyDb.name c;
                  CompanyDb.description c; CompanyDb.numEmployees c;
                  CompanyDb.logoUrl c] |} in
  (insert ∈ (exec db (CompanyDb.create c) d).2
   ↔ ∃ d', db check d = (Some [], d'))
  ∧ match db check d with
    | (Some (_ :: _), d') =>
        exec db (CompanyDb.create c) d
        = (Rejected
             (BadRequestError
                ("Duplicate company: " +:+ Js.ToString (CompanyDb.handle c))),
           d', [check])
    | (Some [], d') =>
        (exec db (CompanyDb.create c) d).2 = [check; insert]
        ∧ (exec db (CompanyDb.create c) d).1.1
          = match (db insert d').1 with
            | Some rows => Fulfilled (head rows)
            | None => DbRejected
            end
    | (None, d') =>
        exec db (CompanyDb.create c) d = (DbRejected, d', [check])
    end.
Proof.
  intros check insert.
  assert (Hne : insert ≠ check).
  { intros H. apply (f_equal (λ q, length (params q))) in H. discriminate H. }
  unfold CompanyDb.create. rewrite exec_bind_query. fold check.
  destruct (db check d) as [[[|row rows]|] d'] eqn:E; settle.
  - rewrite exec_bind_query. fold insert.
    destruct (db insert d') as [[rows'|] d''] eqn:E'; settle;
      (split; [|by split]); (split; [by eexists|]);
      intros _; apply elem_of_cons; right; apply list_elem_of_singleton;
      reflexivity.
  - split; [|reflexivity]. split.
    + intros Hin. apply list_elem_of_singleton in Hin. by destruct Hne.
    + by intros [d'' [=]].
  - split; [|reflexivity]. split.
    + intros Hin. apply list_elem_of_singleton in Hin. by destruct Hne.
    + by intros [d'' [=]].
Qed.

(** X8: when [Job.get] fulfils, the database answered the job query
    with at least one row and then the company query, keyed by that
    row's [companyHandle]; the object returned has no [companyHandle],
    has [company] set to the first company row (or [undefined] when
    there is none), and holds every other column of the job row
    unchanged. *)
Theorem get_replaces_handle_by_company (d d' : D) (id : value)
    (job : gmap string field) (issued : list query)
    (Hfulfilled : exec db (JobDb.get id) d = (Fulfilled job, d', issued)) :
  job !! "companyHandle" = None
  ∧ ∃ row rows d1 companies,
      db {| sql := JobDb.selectSql; params := [id] |} d
      = (Some (row :: rows), d1)
      ∧ db {| sql := JobDb.companySql;
              params := [default VUndefined (row !! "companyHandle")] |} d1
        = (Some companies, d')
      ∧ issued
        = [ {| sql := JobDb.selectSql; params := [id] |};
            {| sql := JobDb.companySql;
               params := [default VUndefined (row !! "companyHandle")] |} ]
      ∧ job !! "company"
        = Some (from_option Obj (Prim VUndefined) (head companies))
      ∧ ∀ key, key ≠ "company" → key ≠ "companyHandle" →
               job !! key = Prim <$> row !! key.
Proof.
  unfold JobDb.get in Hfulfilled. rewrite exec_bind_query in Hfulfilled.
  destruct (db _ d) as [[[|row rows]|] d1] eqn:E1;
    cbn [head] in Hfulfilled; cbv beta iota zeta in Hfulfilled;
    rewrite ?exec_throw in Hfulfilled; try discriminate Hfulfilled.
  rewrite exec_bind_query in Hfulfilled.
  destruct (db _ d1) as [[companies|] d2] eqn:E2;
    cbv beta iota zeta in Hfulfilled; rewrite ?exec_ret in Hfulfilled;
    try discriminate Hfulfilled.
  injection Hfulfilled as <- <- <-.
  split.
  - rewrite lookup_insert_ne by done. apply lookup_delete_eq.
  - exists row, rows, d1, companies.
    split; [reflexivity|]. split; [exact E2|]. split; [reflexivity|].
    split; [apply lookup_insert_eq|].
    intros key Hc Hh.
    by rewrite lookup_insert_ne, lookup_delete_ne, lookup_fmap.
Qed.

(** X9: against a database that answers no row, [get] and [remove]
    reject with [NotFoundError] naming the identifier they were given,
    after exactly one query; [Job.get] never sends its company query. *)
Theorem no_row_is_not_found (d d' : D) (id handle : value)
    (Hnone : ∀ q, db q d = (Some [], d')) :
  exec db (JobDb.get id) d
  = (Rejected (NotFoundError ("No job found with id: " +:+ Js.ToString id)),
     d', [ {| sql := JobDb.selectSql; params := [id] |} ])
  ∧ exec db (JobDb.remove id) d
    = (Rejected (NotFoundError ("No job found with id: " +:+ Js.ToString id)),
       d', [ {| sql := JobDb.deleteSql; params := [id] |} ])
  ∧ exec db (CompanyDb.get handle) d
    = (Rejected (NotFoundError ("No company: " +:+ Js.ToString handle)),
       d', [ {| sql := CompanyDb.selectSql; params := [handle] |} ])
  ∧ exec db (CompanyDb.remove handle) d
    = (Rejected (NotFoundError ("No company: " +:+ Js.ToString handle)),
       d', [ {| sql := CompanyDb.deleteSql; params := [handle] |} ]).
Proof.
  unfold JobDb.get, JobDb.remove, CompanyDb.get, CompanyDb.remove,
    JobDb.notFound, CompanyDb.notFound.
  rewrite !exec_bind_query, !Hnone. settle. by repeat split.
Qed.

(** X10: [remove] fulfils exactly when the database answers its DELETE
    with at least one row, and [Company.get] fulfils exactly with the
    first row answered; neither sends a second query. *)
Theorem fulfilled_by_first_row (d : D) (id handle : value) :
  ((exec db (JobDb.remove id) d).1.1 = Fulfilled ()
   ↔ ∃ row rows d',
       db {| sql := JobDb.deleteSql; params := [id] |} d
       = (Some (row :: rows), d'))
  ∧ ((exec db (CompanyDb.remove handle) d).1.1 = Fulfilled ()
     ↔ ∃ row rows d',
         db {| sql := CompanyDb.deleteSql; params := [handle] |} d
         = (Some (row :: rows), d'))
  ∧ (∀ company,
       (exec db (CompanyDb.get handle) d).1.1 = Fulfilled company
       ↔ ∃ rows d',
           db {| sql := CompanyDb.selectSql; params := [handle] |} d
           = (Some (company :: rows), d'))
  ∧ length (exec db (JobDb.remove id) d).2 = 1
  ∧ length (exec db (CompanyDb.remove handle) d).2 = 1
  ∧ length (exec db (CompanyDb.get handle) d).2 = 1.
Proof.
  unfold JobDb.remove, CompanyDb.get, CompanyDb.remove.
  rewrite !exec_bind_query.
  split; [|split; [|split; [|repeat split]]].
  - destruct (db _ d) as [[[|row rows]|] d']; settle; split;
      first [ discriminate | by intros (? & ? & ? & [=]) | by eauto ].
  - destruct (db _ d) as [[[|row rows]|] d']; settle; split;
      first [ discriminate | by intros (? & ? & ? & [=]) | by eauto ].
  - intros company.
    destruct (db _ d) as [[[|row rows]|] d']; settle; split;
      first [ discriminate | by intros (? & ? & [=]) | idtac ].
    + intros [= ->]. eauto.
    + intros (rows' & d'' & [= -> _ _]). reflexivity.
  - by destruct (db _ d) as [[[|row rows]|] d']; settle.
  - by destruct (db _ d) as [[[|row rows]|] d']; settle.
  - by destruct (db _ d) as [[[|row rows]|] d']; settle.
Qed.

(** X11: [findAll] reaches the database exactly when the request is
    accepted.  A company request whose minimum exceeds its maximum
    rejects without a query and leaves the database as it was; every
    other request sends the one composed query and fulfils with the
    rows answered, as they are. *)
Theorem findAll_reaches_database (d : D)
    (fj : Job.searchFilters) (fc : Company.searchFilters) :
  (∃ q, Job.findAll fj = Ok q
        ∧ exec db (JobDb.findAll fj) d
          = match db q d with
            | (Some rows, d') => (Fulfilled rows, d', [q])
            | (None, d') => (DbRejected, d', [q])
            end)
  ∧ if Js.gt engine (Company.minEmployees fc) (Company.maxEmployees fc)
    then exec db (CompanyDb.findAll engine fc) d
         = (Rejected (BadRequestError Company.tooMany), d, [])
    else ∃ q, Company.findAll engine fc = Ok q
              ∧ exec db (CompanyDb.findAll engine fc) d
                = match db q d with
                  | (Some rows, d') => (Fulfilled rows, d', [q])
                  | (None, d') => (DbRejected, d', [q])
                  end.
Proof.
  split.
  - destruct (exec_job_findAll fj d) as (q & E & _ & H). by exists q.
  - destruct (Js.gt engine (Company.minEmployees fc) (Company.maxEmployees fc))
      eqn:Hgt.
    + unfold CompanyDb.findAll. by rewrite company_findAll_spec, Hgt.
    + destruct (exec_company_findAll fc d Hgt) as (q & E & _ & H).
      by exists q.
Qed.

(** X12: [update] with an empty mapping rejects without a query and
    leaves the database as it was; with a non-empty mapping it sends
    the one composed statement, rejects with [NotFoundError] naming the
    identifier when no row is answered, and otherwise fulfils with the
    first row. *)
Theorem update_runs (d : D) (id handle : value) (data : updates) :
  match data with
  | [] =>
      exec db (JobDb.update id data) d
      = (Rejected (InvalidArgument "no data"), d, [])
      ∧ exec db (CompanyDb.update handle data) d
        = (Rejected (InvalidArgument "no data"), d, [])
  | _ :: _ =>
      (∃ q, Job.update id data = Ok q
            ∧ exec db (JobDb.update id data) d
              = match db q d with
                | (Some [], d') =>
                    (Rejected
                       (NotFoundError
                          ("No job found with id: " +:+ Js.ToString id)),
                     d', [q])
                | (Some (job :: _), d') => (Fulfilled job, d', [q])
                | (None, d') => (DbRejected, d', [q])
                end)
      ∧ ∃ q, Company.update handle data = Ok q
             ∧ exec db (CompanyDb.update handle data) d
               = match db q d with
                 | (Some [], d') =>
                     (Rejected
                        (NotFoundError
                           ("No company: " +:+ Js.ToString handle)),
                      d', [q])
                 | (Some (company :: _), d') => (Fulfilled company, d', [q])
                 | (None, d') => (DbRejected, d', [q])
                 end
  end.
Proof.
  destruct data as [|entry data]; [by split|].
  split.
  - unfold JobDb.update, Job.update, JobDb.notFound.
    rewrite sqlForPartialUpdate_nonempty by done.
    eexists. split; [reflexivity|].
    cbn [mbind result_bind mret result_ret lift prog_mbind prog_bind].
    rewrite exec_bind_query. cbn [sql params].
    by destruct (db _ d) as [[[|job rows]|] d']; settle.
  - unfold CompanyDb.update, Company.update, CompanyDb.notFound.
    rewrite sqlForPartialUpdate_nonempty by done.
    eexists. split; [reflexivity|].
    cbn [mbind result_bind mret result_ret lift prog_mbind prog_bind].
    rewrite exec_bind_query. cbn [sql params].
    by destruct (db _ d) as [[[|job rows]|] d']; settle.
Qed.

End Database.

Lemma get_replaces_handle_by_company_witness :
  exec sample_db (JobDb.get (VNum (Int 7))) 0
  = (Fulfilled
       (<["company" := Obj (<["handle" := VStr "acme"]> ∅)]>
          (delete "companyHandle"
             (Prim <$> <["title" := VStr "Engineer"]>
                         (<["companyHandle" := VStr "acme"]> ∅)))),
     2,
     [ {| sql := JobDb.selectSql; params := [VNum (Int 7)] |};
       {| sql := JobDb.companySql; params := [VStr "acme"] |} ])
  ∧ (<["company" := Obj (<["handle" := VStr "acme"]> ∅)]>
       (delete "companyHandle"
          (Prim <$> <["title" := VStr "Engineer"]>
                      (<["companyHandle" := VStr "acme"]> ∅)))
     : gmap string field) !! "companyHandle" = None.
Proof.
  split; [reflexivity|].
  apply (get_replaces_handle_by_company sample_db 0 2 (VNum (Int 7)) _
           [ {| sql := JobDb.selectSql; params := [VNum (Int 7)] |};
             {| sql := JobDb.companySql; params := [VStr "acme"] |} ]).
  reflexivity.
Defined.

Lemma no_row_is_not_found_witness :
  (∀ q, empty_db q () = (Some [], ()))
  ∧ exec empty_db (CompanyDb.remove (VStr "acme")) ()
    = (Rejected (NotFoundError "No company: acme"), (),
       [ {| sql := CompanyDb.deleteSql; params := [VStr "acme"] |} ]).
Proof.
  split; [reflexivity|].
  apply (no_row_is_not_found empty_db () () (VNum (Int 7)) (VStr "acme")).
  reflexivity.
Defined.
